(** * Kartograf web map: level/layer composition and overlay synchronisation

    A shallow embedding of [src/webmap.ts] (class [Webmap] and its builder)
    together with the part of Leaflet that the class drives: layers with
    object identity, the layers control [L.Control.Layers] and the map view.

    Conventions of the embedding.
    - A plain JavaScript object used as a dictionary is an association list
      in property order ([Obj.t]); reading a missing key gives [None]
      (JavaScript [undefined]).  Property names are ordinary names: the
      prototype chain (the name [__proto__], inherited members of
      [Object.prototype]) is outside the model.
    - A loop [for (const k in o) { const v = o[k]; ... }] is a loop over
      the properties [(k, v)] of [o] in property order.
    - Object identity of Leaflet layers is a number drawn from an allocation
      counter kept in the [World]; it plays the role of Leaflet's stamp.
    - Of Leaflet, the model keeps what the class observes: the entries of
      the layers control, the layers added to the view, its bounds and its
      subscriptions.  Rendering and the view's own reaction to a choice of
      base layer are left out.
    - Numbers ([tileSize], zoom levels) are only stored and compared with
      literals, so they are integers here; the bounds of the map are of an
      arbitrary type.
    - The path getter is a pure function; each call is recorded in the
      [World] so that its arguments can be specified.
    - [sync] in the comments is the specification's name of
      [_updateOverlays]. *)

From Stdlib Require Import List String Ascii ZArith NArith Bool Arith Lia Permutation.
Import ListNotations.
Local Open Scope string_scope.
Local Open Scope list_scope.

Set Implicit Arguments.
Set Warnings "-register-all".

(* ================================================================== *)
(** * Plain objects as ordered dictionaries *)
(* ================================================================== *)

Module Obj.

Definition t (V : Type) : Type := list (string * V).

Definition empty {V : Type} : t V := [].

(** [o[k]]: the first (and, for an object built with [set], only)
    property called [k]. *)
Fixpoint get {V : Type} (k : string) (o : t V) : option V :=
  match o with
  | [] => None
  | (k', v) :: o' => if String.eqb k k' then Some v else get k o'
  end.

Definition has {V : Type} (k : string) (o : t V) : bool :=
  match get k o with Some _ => true | None => false end.

(** Property names in [for ... in] order. *)
Definition keys {V : Type} (o : t V) : list string := map fst o.

Definition values {V : Type} (o : t V) : list V := map snd o.

Definition size {V : Type} (o : t V) : nat := List.length o.

(** ** Property order

    JavaScript lists the properties whose names are array indices
    (canonical decimal numerals below 2^32 - 1) first, by increasing
    value, and the other names after them in the order of creation. *)

Definition digit (c : ascii) : option N :=
  let n := N_of_ascii c in
  if ((48 <=? n) && (n <=? 57))%N then Some (n - 48)%N else None.

Fixpoint digits (s : string) (acc : N) : option N :=
  match s with
  | EmptyString => Some acc
  | String c s' =>
      match digit c with
      | Some d => digits s' (10 * acc + d)%N
      | None => None
      end
  end.

Definition array_index (s : string) : option N :=
  match s with
  | EmptyString => None
  | String c s' =>
      if Ascii.eqb c "0"%char then
        match s' with EmptyString => Some 0%N | _ => None end
      else
        match digits s 0%N with
        | Some n => if (n <? 4294967295)%N then Some n else None
        | None => None
        end
  end.

(** Assignment to an existing property keeps its position. *)
Fixpoint replace {V : Type} (k : string) (v : V) (o : t V) : t V :=
  match o with
  | [] => []
  | (k', v') :: o' =>
      if String.eqb k k' then (k', v) :: o' else (k', v') :: replace k v o'
  end.

(** A new array-index property goes after the smaller indices. *)
Fixpoint insert_index {V : Type} (n : N) (k : string) (v : V) (o : t V) : t V :=
  match o with
  | [] => [(k, v)]
  | (k', v') :: o' =>
      match array_index k' with
      | Some n' =>
          if (n' <? n)%N then (k', v') :: insert_index n k v o'
          else (k, v) :: o
      | None => (k, v) :: o
      end
  end.

(** [o[k] = v], for an ordinary property name [k].  The name
    ["__proto__"] is not one: in an object created by [{}] that assignment
    sets the prototype and creates no property.  A property that needs
    the key to exist is stated for level names and display labels other
    than that name ([plain_levels], [plain_labels] below). *)
Definition set {V : Type} (k : string) (v : V) (o : t V) : t V :=
  if has k o then replace k v o
  else
    match array_index k with
    | Some n => insert_index n k v o
    | None => o ++ [(k, v)]
    end.

(** An object literal: the properties are created from left to right. *)
Definition of_list {V : Type} (l : list (string * V)) : t V :=
  fold_left (fun o kv => set (fst kv) (snd kv) o) l empty.

(** What every object satisfies: no property name occurs twice. *)
Definition wf {V : Type} (o : t V) : Prop := NoDup (keys o).

End Obj.

(* ================================================================== *)
(** * Leaflet: layers, the layers control, the map view *)
(* ================================================================== *)

Module L.
Section Leaflet.

Variable LatLngBounds : Type.

(** The options the program passes to [L.tileLayer]; [className] is
    [None] where the program leaves it out. *)
Record TileLayerOptions : Type := {
  className : option string;
  bounds : LatLngBounds;
  maxZoom : Z;
  maxNativeZoom : Z;
  tileSize : Z
}.

(** The options of [L.imageOverlay] (absent options give [None]). *)
Record ImageOverlayOptions : Type := {
  imageClassName : option string
}.

(** Layer objects.  The first component is the object's identity. *)
Inductive Layer : Type :=
| TileLayer (id : nat) (urlTemplate : string) (options : TileLayerOptions)
| ImageOverlay (id : nat) (imageUrl : string) (imageBounds : LatLngBounds)
    (options : ImageOverlayOptions)
| LayerGroup (id : nat) (members : list Layer).

Definition stamp (l : Layer) : nat :=
  match l with
  | TileLayer id _ _ => id
  | ImageOverlay id _ _ _ => id
  | LayerGroup id _ => id
  end.

(** [group.addLayer(layer)]: the group keeps its members by stamp; the
    members the program adds are stamped in increasing order, so the new
    member comes last. *)
Definition addLayer (l : Layer) (g : Layer) : Layer :=
  match g with
  | LayerGroup id ms => LayerGroup id (ms ++ [l])
  | _ => g
  end.

Definition members_of (g : Layer) : list Layer :=
  match g with
  | LayerGroup _ ms => ms
  | _ => []
  end.

(** ** [L.Control.Layers]

    The control keeps an array of entries [{layer, name, overlay}].
    [addBaseLayer] and [addOverlay] push an entry; [removeLayer] looks the
    layer up by stamp and splices out the first entry that carries it,
    whatever the entry's kind. *)
Record ControlEntry : Type := {
  layer : Layer;
  name : string;
  overlay : bool
}.

Definition Control : Type := list ControlEntry.

Definition control_layers : Control := [].

Definition addBaseLayer (l : Layer) (n : string) (c : Control) : Control :=
  c ++ [{| layer := l; name := n; overlay := false |}].

Definition addOverlay (l : Layer) (n : string) (c : Control) : Control :=
  c ++ [{| layer := l; name := n; overlay := true |}].

Fixpoint removeLayer (l : Layer) (c : Control) : Control :=
  match c with
  | [] => []
  | e :: c' =>
      if Nat.eqb (stamp (layer e)) (stamp l) then c'
      else e :: removeLayer l c'
  end.

(** The entries shown as overlay toggles and as base-layer choices. *)
Definition overlay_entries (c : Control) : list ControlEntry :=
  filter (fun e => overlay e) c.

Definition base_entries (c : Control) : list ControlEntry :=
  filter (fun e => negb (overlay e)) c.

(** ** [L.Map], the view *)
Record Map : Type := {
  maxBounds : option LatLngBounds;
  fitted : option LatLngBounds;
  shown : list Layer;
  attributionPrefix : option string;
  listeners : list string
}.

Definition setMaxBounds (b : LatLngBounds) (m : Map) : Map :=
  {| maxBounds := Some b; fitted := fitted m; shown := shown m;
     attributionPrefix := attributionPrefix m; listeners := listeners m |}.

Definition fitBounds (b : LatLngBounds) (m : Map) : Map :=
  {| maxBounds := maxBounds m; fitted := Some b; shown := shown m;
     attributionPrefix := attributionPrefix m; listeners := listeners m |}.

Definition hasLayer (l : Layer) (m : Map) : bool :=
  existsb (fun l' => Nat.eqb (stamp l') (stamp l)) (shown m).

(** [map.addLayer(layer)] ([layer.addTo(map)]): nothing happens when the
    layer is on the map already.  A group on the map stands for its
    members.  Leaflet refuses to load the tiles of a tile layer of tile
    size 0 on a view that is loaded; this is not modelled, and a property
    that depends on the layer being shown assumes a positive tile size
    ([tile_size_ok] below). *)
Definition map_addLayer (l : Layer) (m : Map) : Map :=
  if hasLayer l m then m
  else {| maxBounds := maxBounds m; fitted := fitted m;
          shown := shown m ++ [l];
          attributionPrefix := attributionPrefix m;
          listeners := listeners m |}.

Definition setPrefix (p : string) (m : Map) : Map :=
  {| maxBounds := maxBounds m; fitted := fitted m; shown := shown m;
     attributionPrefix := Some p; listeners := listeners m |}.

(** [map.on(type, handler)]: the program has one handler per event type,
    so a subscription is recorded by its event type. *)
Definition on (type : string) (m : Map) : Map :=
  {| maxBounds := maxBounds m; fitted := fitted m; shown := shown m;
     attributionPrefix := attributionPrefix m;
     listeners := listeners m ++ [type] |}.

End Leaflet.

Arguments TileLayer {LatLngBounds} id urlTemplate options.
Arguments ImageOverlay {LatLngBounds} id imageUrl imageBounds options.
Arguments LayerGroup {LatLngBounds} id members.
Arguments control_layers {LatLngBounds}.

End L.

(* ================================================================== *)
(** * Configuration and map description *)
(* ================================================================== *)

(** Modelled from the spec: the type declarations [Config], [Map],
    [BaseLayers], [Overlays], [LayerWithName], [MapWithName] and
    [FileLayerPathGetter], which [webmap.ts] imports from the package index.
    [layerSettings] is absent, or [{type: 'Tiles', tileSize}], or a
    non-Tiles variant; [layers] maps a layer identifier to its [display]
    label. *)
Module Config.

Inductive LayerSettings : Type :=
| Tiles (tileSize : Z)
| Image.

Record LayerConfig : Type := { display : string }.

Record t : Type := {
  layerSettings : option LayerSettings;
  layers : Obj.t LayerConfig
}.

End Config.

Module Level.

(** [underlays] is optional. *)
Record t : Type := { underlays : option (list string) }.

End Level.

Module Map.

Record t (Bounds : Type) : Type := {
  bounds : Bounds;
  layers : list string;
  levels : Obj.t Level.t;
  mainLevel : string
}.

End Map.

(* ================================================================== *)
(** * The program *)
(* ================================================================== *)

Section Kartograf.

Variable Bounds : Type.

Local Abbreviation Layer := (L.Layer Bounds).

(** The third argument is [this.map.layers[0]] in two of the three call
    sites, which is [undefined] ([None]) when [layers] is empty. *)
Definition FileLayerPathGetter : Type :=
  string -> string -> option string -> string.

Definition PathCall : Type := (string * string * option string)%type.

Definition BaseLayers : Type := Obj.t Layer.
Definition Overlays : Type := Obj.t (Obj.t Layer).
Definition LayerWithName : Type := (Layer * string)%type.
Definition MapWithName : Type := (Map.t Bounds * string)%type.

(** ** Effects: allocation of layers, calls of the path getter, throw

    The world holds the next stamp, the calls of the path getter so far
    and the tile layers and image overlays constructed so far. *)

Record World : Type := {
  next_id : nat;
  path_calls : list PathCall;
  visuals : list Layer
}.

Inductive Error : Type :=
| TypeError (message : string).

Inductive Completion (A : Type) : Type :=
| Normal (a : A)
| Throw (e : Error).
Arguments Throw {A} e.

(** A throw keeps the effects made before it. *)
Definition M (A : Type) : Type := World -> Completion A * World.

Definition ret {A : Type} (a : A) : M A := fun s => (Normal a, s).

Definition bind {A B : Type} (m : M A) (f : A -> M B) : M B :=
  fun s =>
    match m s with
    | (Normal a, s') => f a s'
    | (Throw e, s') => (Throw e, s')
    end.

Definition throw {A : Type} (e : Error) : M A := fun s => (Throw e, s).

Notation "x <- m ;; k" := (bind m (fun x => k))
  (at level 61, m at next level, right associativity).

(** A loop that threads the value it builds. *)
Fixpoint for_each {A S : Type} (l : list A) (body : S -> A -> M S) (acc : S)
  : M S :=
  match l with
  | [] => ret acc
  | x :: l' => acc' <- body acc x ;; for_each l' body acc'
  end.

Definition fresh : M nat :=
  fun s => (Normal (next_id s),
            {| next_id := S (next_id s); path_calls := path_calls s;
               visuals := visuals s |}).

Definition built (l : Layer) : M Layer :=
  fun s => (Normal l,
            {| next_id := next_id s; path_calls := path_calls s;
               visuals := visuals s ++ [l] |}).

Definition call (g : FileLayerPathGetter) (mapName levelName : string)
    (layerName : option string) : M string :=
  fun s => (Normal (g mapName levelName layerName),
            {| next_id := next_id s;
               path_calls := path_calls s ++ [(mapName, levelName, layerName)];
               visuals := visuals s |}).

Definition tileLayer (urlTemplate : string) (o : L.TileLayerOptions Bounds)
  : M Layer :=
  id <- fresh ;; built (L.TileLayer id urlTemplate o).

Definition imageOverlay (url : string) (b : Bounds)
    (o : L.ImageOverlayOptions) : M Layer :=
  id <- fresh ;; built (L.ImageOverlay id url b o).

Definition layerGroup (ls : list Layer) : M Layer :=
  id <- fresh ;; ret (L.LayerGroup id ls).

(** ** [class Webmap] *)

(** The fields of the parameters are [webmap], [config], [map] and
    [pathGetter]; the prefix keeps them apart from the getters of the
    class. *)
Record WebmapParameters : Type := {
  param_webmap : L.Map Bounds;
  param_config : Config.t;
  param_map : MapWithName;
  param_pathGetter : option FileLayerPathGetter
}.

Record Webmap : Type := {
  _webmap : L.Map Bounds;
  _map : MapWithName;
  _config : Config.t;
  _baseLayers : BaseLayers;
  _overlays : Overlays;
  _layersControl : L.Control Bounds;
  _pathGetter : FileLayerPathGetter;
  _mainBaseLayer : option LayerWithName
}.

Definition webmap (w : Webmap) : L.Map Bounds := _webmap w.
Definition map (w : Webmap) : Map.t Bounds := fst (_map w).
Definition mapName (w : Webmap) : string := snd (_map w).
Definition config (w : Webmap) : Config.t := _config w.

(** The two path getters of the package, which are not part of
    [webmap.ts]. *)
Variable getLayerFolder : FileLayerPathGetter.
Variable getLayerImage : FileLayerPathGetter.

Definition Webmap_new (params : WebmapParameters) : Webmap :=
  {| _webmap := param_webmap params;
     _config := param_config params;
     _map := param_map params;
     _baseLayers := Obj.empty;
     _overlays := Obj.empty;
     _layersControl := L.control_layers;
     _pathGetter :=
       match param_pathGetter params with
       | None =>
           match Config.layerSettings (param_config params) with
           | Some (Config.Tiles _) => getLayerFolder
           | _ => getLayerImage
           end
       | Some g => g
       end;
     _mainBaseLayer := None |}.

(** Field updates. *)
Definition with_webmap (v : L.Map Bounds) (w : Webmap) : Webmap :=
  {| _webmap := v; _map := _map w; _config := _config w;
     _baseLayers := _baseLayers w; _overlays := _overlays w;
     _layersControl := _layersControl w; _pathGetter := _pathGetter w;
     _mainBaseLayer := _mainBaseLayer w |}.

Definition with_baseLayers (b : BaseLayers) (w : Webmap) : Webmap :=
  {| _webmap := _webmap w; _map := _map w; _config := _config w;
     _baseLayers := b; _overlays := _overlays w;
     _layersControl := _layersControl w; _pathGetter := _pathGetter w;
     _mainBaseLayer := _mainBaseLayer w |}.

Definition with_overlays (o : Overlays) (w : Webmap) : Webmap :=
  {| _webmap := _webmap w; _map := _map w; _config := _config w;
     _baseLayers := _baseLayers w; _overlays := o;
     _layersControl := _layersControl w; _pathGetter := _pathGetter w;
     _mainBaseLayer := _mainBaseLayer w |}.

Definition with_layersControl (c : L.Control Bounds) (w : Webmap) : Webmap :=
  {| _webmap := _webmap w; _map := _map w; _config := _config w;
     _baseLayers := _baseLayers w; _overlays := _overlays w;
     _layersControl := c; _pathGetter := _pathGetter w;
     _mainBaseLayer := _mainBaseLayer w |}.

Definition with_mainBaseLayer (m : option LayerWithName) (w : Webmap)
  : Webmap :=
  {| _webmap := _webmap w; _map := _map w; _config := _config w;
     _baseLayers := _baseLayers w; _overlays := _overlays w;
     _layersControl := _layersControl w; _pathGetter := _pathGetter w;
     _mainBaseLayer := m |}.

(** The layer settings select the strategy at every construction site:
    [this._config.layerSettings?.type === 'Tiles']. *)
Definition tiles_of (c : Config.t) : option Z :=
  match Config.layerSettings c with
  | Some (Config.Tiles tileSize) => Some tileSize
  | _ => None
  end.

Definition tile_suffix : string := "/{z}/{x}/{y}.png".

Definition make_underlay (w : Webmap) (underlayName : string) : M Layer :=
  match tiles_of (_config w) with
  | Some tileSize =>
      path <- call (_pathGetter w) (mapName w) underlayName
                (hd_error (Map.layers (map w))) ;;
      tileLayer (path ++ tile_suffix)
        {| L.className := Some "UnderlayLayer";
           L.bounds := Map.bounds (map w);
           L.maxZoom := 4;
           L.maxNativeZoom := 4;
           L.tileSize := tileSize |}
  | None =>
      path <- call (_pathGetter w) (mapName w) underlayName
                (hd_error (Map.layers (map w))) ;;
      imageOverlay path (Map.bounds (map w))
        {| L.imageClassName := Some "UnderlayLayer" |}
  end.

Definition make_baseLayer (w : Webmap) (levelName : string) : M Layer :=
  match tiles_of (_config w) with
  | Some tileSize =>
      path <- call (_pathGetter w) (mapName w) levelName
                (hd_error (Map.layers (map w))) ;;
      tileLayer (path ++ tile_suffix)
        {| L.className := None;
           L.bounds := Map.bounds (map w);
           L.maxZoom := 4;
           L.maxNativeZoom := 4;
           L.tileSize := tileSize |}
  | None =>
      path <- call (_pathGetter w) (mapName w) levelName
                (hd_error (Map.layers (map w))) ;;
      imageOverlay path (Map.bounds (map w)) {| L.imageClassName := None |}
  end.

Definition make_overlay (w : Webmap) (levelName layerName : string)
  : M Layer :=
  match tiles_of (_config w) with
  | Some _ =>
      path <- call (_pathGetter w) (mapName w) levelName (Some layerName) ;;
      tileLayer (path ++ tile_suffix)
        {| L.className := None;
           L.bounds := Map.bounds (map w);
           L.maxZoom := 4;
           L.maxNativeZoom := 4;
           L.tileSize := 1024 |}
  | None =>
      path <- call (_pathGetter w) (mapName w) levelName (Some layerName) ;;
      imageOverlay path (Map.bounds (map w)) {| L.imageClassName := None |}
  end.

(** The body of the loop over the levels in [_getBaseLayersForMap]. *)
Definition baseLayers_step (w : Webmap) (baseLayers : BaseLayers)
    (kv : string * Level.t) : M BaseLayers :=
  let (levelName, level) := kv in
  underlays <-
    match Level.underlays level with
    | Some names =>
        for_each names
          (fun underlays underlayName =>
             underlay <- make_underlay w underlayName ;;
             ret (underlays ++ [underlay]))
          []
    | None => ret []
    end ;;
  baseLayer <- make_baseLayer w levelName ;;
  group <- layerGroup underlays ;;
  ret (Obj.set levelName (L.addLayer baseLayer group) baseLayers).

Definition _getBaseLayersForMap (w : Webmap) : M BaseLayers :=
  for_each (Map.levels (map w)) (baseLayers_step w) Obj.empty.

(** The body of the inner loop of [_getOverlays], over
    [this.map.layers.slice(1)].  The overlay is built before
    [layer.display] is read, and that read throws when
    [this.config.layers[layerName]] is [undefined].  The entry is looked
    up among the properties of [config.layers] itself: for a name that
    every object inherits ([Object_prototype] below) and that has no entry
    the program finds the inherited member instead of [undefined]. *)
Definition overlays_step (w : Webmap) (levelName : string)
    (overlays : Overlays) (layerName : string) : M Overlays :=
  let layer := Obj.get layerName (Config.layers (config w)) in
  overlay <- make_overlay w levelName layerName ;;
  match layer with
  | None =>
      throw (TypeError "Cannot read properties of undefined (reading 'display')")
  | Some layer =>
      match Obj.get levelName overlays with
      | None =>
          throw (TypeError "Cannot set properties of undefined")
      | Some level_overlays =>
          ret (Obj.set levelName
                 (Obj.set (Config.display layer) overlay level_overlays)
                 overlays)
      end
  end.

Definition _getOverlays (w : Webmap) : M Overlays :=
  for_each (Map.levels (map w))
    (fun overlays kv =>
       let levelName := fst kv in
       for_each (tl (Map.layers (map w))) (overlays_step w levelName)
         (Obj.set levelName Obj.empty overlays))
    Obj.empty.

Definition _addBaseLayersToControl (w : Webmap) : Webmap :=
  with_layersControl
    (fold_left (fun c kv => L.addBaseLayer (snd kv) (fst kv) c)
       (_baseLayers w) (_layersControl w))
    w.

Definition _findMainBaseLayer (w : Webmap) : option LayerWithName :=
  match
    find (fun kv => String.eqb (fst kv) (Map.mainLevel (map w)))
      (_baseLayers w)
  with
  | Some (layerName, layer) => Some (layer, layerName)
  | None => None
  end.

(** Every overlay of every level, in the order of the two nested loops. *)
Definition all_overlays (o : Overlays) : list Layer :=
  flat_map (fun kv => Obj.values (snd kv)) o.

Definition _updateOverlays (targetLevel : string) (w : Webmap) : Webmap :=
  let removed :=
    fold_left
      (fun c level =>
         fold_left (fun c kv => L.removeLayer (snd kv) c) (snd level) c)
      (_overlays w) (_layersControl w) in
  with_layersControl
    match Obj.get targetLevel (_overlays w) with
    | Some level_overlays =>
        fold_left (fun c kv => L.addOverlay (snd kv) (fst kv) c)
          level_overlays removed
    | None => removed
    end
    w.

Definition initialize (w : Webmap) : M Webmap :=
  let w := with_webmap (L.setMaxBounds (Map.bounds (map w)) (webmap w)) w in
  let w := with_webmap (L.fitBounds (Map.bounds (map w)) (webmap w)) w in
  baseLayers <- _getBaseLayersForMap w ;;
  let w := with_baseLayers baseLayers w in
  let w := _addBaseLayersToControl w in
  overlays <- _getOverlays w ;;
  let w := with_overlays overlays w in
  let w := with_mainBaseLayer (_findMainBaseLayer w) w in
  let w :=
    match _mainBaseLayer w with
    | Some (layer, layerName) =>
        let w := _updateOverlays layerName w in
        with_webmap (L.map_addLayer layer (webmap w)) w
    | None => w
    end in
  ret (with_webmap (L.on "baselayerchange" (webmap w)) w).

(** The view calls every handler subscribed to [baselayerchange] with the
    name of the chosen entry; each handler is [_updateOverlays].  This is
    the event alone: what Leaflet does to the layers on the view when the
    user chooses an entry is not part of it. *)
Definition baselayerchange (name : string) (w : Webmap) : Webmap :=
  fold_left
    (fun w type =>
       if String.eqb type "baselayerchange" then _updateOverlays name w
       else w)
    (L.listeners (webmap w)) w.

(** ** [class WebmapBuilder] *)

Record WebmapBuilder : Type := { _instance : Webmap }.

Definition WebmapBuilder_new (params : WebmapParameters) : WebmapBuilder :=
  {| _instance := Webmap_new params |}.

Definition andSetAttributionPrefix (prefix : string) (b : WebmapBuilder)
  : WebmapBuilder :=
  {| _instance :=
       with_webmap (L.setPrefix prefix (webmap (_instance b))) (_instance b) |}.

Definition andAddLayer (layer : Layer) (b : WebmapBuilder) : WebmapBuilder :=
  {| _instance :=
       with_webmap (L.map_addLayer layer (webmap (_instance b)))
         (_instance b) |}.

Definition andBuild (b : WebmapBuilder) : Webmap := _instance b.

(** ** Vocabulary of the specification *)

(** Every overlay name, [layers.slice(1)], has an entry in
    [config.layers]. *)
Definition configured (w : Webmap) : bool :=
  forallb (fun layerName => Obj.has layerName (Config.layers (config w)))
    (tl (Map.layers (map w))).

(** The display labels of the configured names among [names]. *)
Definition labels_of (w : Webmap) (names : list string) : list string :=
  flat_map
    (fun layerName =>
       match Obj.get layerName (Config.layers (config w)) with
       | Some layer => [Config.display layer]
       | None => []
       end)
    names.

Definition overlay_labels (w : Webmap) : list string :=
  labels_of w (tl (Map.layers (map w))).

Definition underlay_names (level : Level.t) : list string :=
  match Level.underlays level with
  | Some names => names
  | None => []
  end.

(** The calls of the path getter made for one level: for its base layer
    (the underlays, then the primary visual) and for its overlays. *)
Definition level_calls (w : Webmap) (kv : string * Level.t) : list PathCall :=
  List.map (fun u => (mapName w, u, hd_error (Map.layers (map w))))
    (underlay_names (snd kv))
  ++ [(mapName w, fst kv, hd_error (Map.layers (map w)))].

Definition overlay_level_calls (w : Webmap) (kv : string * Level.t)
  : list PathCall :=
  List.map (fun layerName => (mapName w, fst kv, Some layerName))
    (tl (Map.layers (map w))).

(** The calls made for the base layers and for the overlays, in order. *)
Definition base_calls (w : Webmap) : list PathCall :=
  flat_map (level_calls w) (Map.levels (map w)).

Definition overlay_calls (w : Webmap) : list PathCall :=
  flat_map (overlay_level_calls w) (Map.levels (map w)).

(** Control entries for the overlays of one level and for the base
    layers. *)
Definition overlay_entries_of (o : Obj.t Layer) : L.Control Bounds :=
  List.map
    (fun kv => {| L.layer := snd kv; L.name := fst kv; L.overlay := true |})
    o.

Definition target_entries (targetLevel : string) (o : Overlays)
  : L.Control Bounds :=
  match Obj.get targetLevel o with
  | Some level_overlays => overlay_entries_of level_overlays
  | None => []
  end.

Definition base_entries_of (b : BaseLayers) : L.Control Bounds :=
  List.map
    (fun kv => {| L.layer := snd kv; L.name := fst kv; L.overlay := false |})
    b.

Definition stamps (c : L.Control Bounds) : list nat :=
  List.map (fun e => L.stamp (L.layer e)) c.

Definition times_registered (l : Layer) (c : L.Control Bounds) : nat :=
  count_occ Nat.eq_dec (stamps c) (L.stamp l).

(** The control without the entries of the layers stamped [ids]. *)
Definition without (ids : list nat) (c : L.Control Bounds) : L.Control Bounds :=
  filter (fun e => negb (existsb (Nat.eqb (L.stamp (L.layer e))) ids)) c.

(** [removeLayer] for each layer of a list in turn. *)
Definition remove_all (ls : list Layer) (c : L.Control Bounds)
  : L.Control Bounds :=
  fold_left (fun c l => L.removeLayer l c) ls c.

(** No overlay of the web map is registered twice. *)
Definition registered_once (o : Overlays) (c : L.Control Bounds) : Prop :=
  forall l, In l (all_overlays o) -> times_registered l c <= 1.

(** Every overlay entry of the control is an overlay of the web map. *)
Definition overlays_known (o : Overlays) (c : L.Control Bounds) : Prop :=
  forall e, In e c -> L.overlay e = true ->
    In (L.stamp (L.layer e)) (List.map (@L.stamp Bounds) (all_overlays o)).

(** The two properties as tests. *)
Definition registered_onceb (o : Overlays) (c : L.Control Bounds) : bool :=
  forallb (fun l => Nat.leb (times_registered l c) 1) (all_overlays o).

Definition overlays_knownb (o : Overlays) (c : L.Control Bounds) : bool :=
  forallb
    (fun e =>
       implb (L.overlay e)
         (existsb (Nat.eqb (L.stamp (L.layer e)))
            (List.map (@L.stamp Bounds) (all_overlays o))))
    c.

(** No base-layer entry of the control carries an overlay of the web map. *)
Definition base_entries_apart (o : Overlays) (c : L.Control Bounds) : Prop :=
  forall e, In e c -> L.overlay e = false ->
    ~ In (L.stamp (L.layer e)) (List.map (@L.stamp Bounds) (all_overlays o)).

(** The states of a web map: after [initialize], and after each
    base-layer change. *)
Inductive reachable (params : WebmapParameters) (s : World)
  : Webmap -> Prop :=
| reach_initialize w s' :
    initialize (Webmap_new params) s = (Normal w, s') ->
    reachable params s w
| reach_change w name :
    reachable params s w ->
    reachable params s (baselayerchange name w).

(** The weakest precondition of a computation, for a postcondition on
    normal completion and one on a throw. *)
Definition wp {A : Type} (m : M A) (Q : A -> World -> Prop)
    (E : Error -> World -> Prop) (s : World) : Prop :=
  match m s with
  | (Normal a, s') => Q a s'
  | (Throw e, s') => E e s'
  end.

Definition no_throw : Error -> World -> Prop := fun _ _ => False.

(** The world after one visual has been built from one path. *)
Definition allocated (l : Layer) (c : PathCall) (s : World) : World :=
  {| next_id := S (next_id s);
     path_calls := path_calls s ++ [c];
     visuals := visuals s ++ [l] |}.

(** The visuals the three construction sites build, given the stamp. *)
Definition underlay_of (w : Webmap) (underlayName : string) (id : nat)
  : Layer :=
  let path :=
    _pathGetter w (mapName w) underlayName (hd_error (Map.layers (map w))) in
  match tiles_of (_config w) with
  | Some tileSize =>
      L.TileLayer id (path ++ tile_suffix)
        {| L.className := Some "UnderlayLayer";
           L.bounds := Map.bounds (map w);
           L.maxZoom := 4;
           L.maxNativeZoom := 4;
           L.tileSize := tileSize |}
  | None =>
      L.ImageOverlay id path (Map.bounds (map w))
        {| L.imageClassName := Some "UnderlayLayer" |}
  end.

Definition baseLayer_of (w : Webmap) (levelName : string) (id : nat)
  : Layer :=
  let path :=
    _pathGetter w (mapName w) levelName (hd_error (Map.layers (map w))) in
  match tiles_of (_config w) with
  | Some tileSize =>
      L.TileLayer id (path ++ tile_suffix)
        {| L.className := None;
           L.bounds := Map.bounds (map w);
           L.maxZoom := 4;
           L.maxNativeZoom := 4;
           L.tileSize := tileSize |}
  | None =>
      L.ImageOverlay id path (Map.bounds (map w))
        {| L.imageClassName := None |}
  end.

Definition overlay_of (w : Webmap) (levelName layerName : string) (id : nat)
  : Layer :=
  let path := _pathGetter w (mapName w) levelName (Some layerName) in
  match tiles_of (_config w) with
  | Some _ =>
      L.TileLayer id (path ++ tile_suffix)
        {| L.className := None;
           L.bounds := Map.bounds (map w);
           L.maxZoom := 4;
           L.maxNativeZoom := 4;
           L.tileSize := 1024 |}
  | None =>
      L.ImageOverlay id path (Map.bounds (map w))
        {| L.imageClassName := None |}
  end.

(** Shapes of the visuals. *)
Definition tile_with (b : Bounds) (size : Z) (l : Layer) : Prop :=
  match l with
  | L.TileLayer _ _ o =>
      L.bounds o = b /\ L.maxZoom o = 4%Z /\ L.maxNativeZoom o = 4%Z
      /\ L.tileSize o = size
  | _ => False
  end.

Definition image_with (b : Bounds) (l : Layer) : Prop :=
  match l with
  | L.ImageOverlay _ _ b' _ => b' = b
  | _ => False
  end.

Definition is_underlay (l : Layer) : Prop :=
  match l with
  | L.TileLayer _ _ o => L.className o = Some "UnderlayLayer"
  | L.ImageOverlay _ _ _ o => L.imageClassName o = Some "UnderlayLayer"
  | L.LayerGroup _ _ => False
  end.

Definition url_of (l : Layer) : string :=
  match l with
  | L.TileLayer _ u _ => u
  | L.ImageOverlay _ u _ _ => u
  | L.LayerGroup _ _ => ""
  end.

(** What the strategy asks of a base visual (an underlay or a primary
    visual) and of an overlay. *)
Definition base_shape (w : Webmap) (l : Layer) : Prop :=
  match tiles_of (_config w) with
  | Some tileSize => tile_with (Map.bounds (map w)) tileSize l
  | None => image_with (Map.bounds (map w)) l
  end.

Definition overlay_shape (w : Webmap) (l : Layer) : Prop :=
  match tiles_of (_config w) with
  | Some _ => tile_with (Map.bounds (map w)) 1024 l
  | None => image_with (Map.bounds (map w)) l
  end.

(** An entry of [Overlays[levelName]]: an overlay built for a layer name
    whose display label is the entry's key. *)
Definition overlay_entry_ok (w : Webmap) (levelName : string)
    (kv : string * Layer) : Prop :=
  exists layerName layer,
    In layerName (tl (Map.layers (map w)))
    /\ Obj.get layerName (Config.layers (config w)) = Some layer
    /\ fst kv = Config.display layer
    /\ snd kv = overlay_of w levelName layerName (L.stamp (snd kv)).

(** A base layer of a level: a group of the level's underlays, in order,
    with the primary visual on top. *)
Definition base_group_ok (w : Webmap) (level : Level.t) (g : Layer) : Prop :=
  exists us b,
    g = L.LayerGroup (L.stamp g) (us ++ [b])
    /\ List.length us = List.length (underlay_names level)
    /\ Forall (fun u => base_shape w u /\ is_underlay u) us
    /\ base_shape w b /\ ~ is_underlay b.

(** The overlays of one level, once the overlay names [names] are done. *)
Definition level_overlays_ok (w : Webmap) (levelName : string)
    (names : list string) (o : Obj.t Layer) : Prop :=
  Obj.wf o
  /\ (forall d, In d (Obj.keys o) <-> In d (labels_of w names))
  /\ (forall kv, In kv o -> overlay_entry_ok w levelName kv).

(** What [_getBaseLayersForMap] has built when the levels [done] are
    done, having started in the world [s0]. *)
Record baseLayers_built (w : Webmap) (s0 : World)
    (done : list (string * Level.t)) (b : BaseLayers) (s : World) : Prop := {
  bb_next : next_id s0 <= next_id s;
  bb_calls : path_calls s = path_calls s0 ++ flat_map (level_calls w) done;
  bb_visuals :
    exists vs, visuals s = visuals s0 ++ vs /\ Forall (base_shape w) vs
               /\ forall g, In g (Obj.values b) -> incl (L.members_of g) vs;
  bb_wf : Obj.wf b;
  bb_keys : forall k, In k (Obj.keys b) <-> In k (Obj.keys done);
  bb_nodup : NoDup (List.map (@L.stamp Bounds) (Obj.values b));
  bb_range :
    forall g, In g (Obj.values b) -> next_id s0 <= L.stamp g < next_id s;
  bb_groups :
    forall k g, Obj.get k b = Some g ->
      exists level, In (k, level) done /\ base_group_ok w level g
}.

(** What [_getOverlays] has built when the levels [done] are done. *)
Record overlays_built (w : Webmap) (s0 : World)
    (done : list (string * Level.t)) (o : Overlays) (s : World) : Prop := {
  ob_next : next_id s0 <= next_id s;
  ob_calls :
    path_calls s = path_calls s0 ++ flat_map (overlay_level_calls w) done;
  ob_visuals :
    exists vs, visuals s = visuals s0 ++ vs /\ Forall (overlay_shape w) vs
               /\ incl (all_overlays o) vs;
  ob_wf : Obj.wf o;
  ob_keys : forall k, In k (Obj.keys o) <-> In k (Obj.keys done);
  ob_nodup : NoDup (List.map (@L.stamp Bounds) (all_overlays o));
  ob_range :
    forall x, In x (all_overlays o) -> next_id s0 <= L.stamp x < next_id s;
  ob_levels :
    forall k level_overlays, Obj.get k o = Some level_overlays ->
      level_overlays_ok w k (tl (Map.layers (map w))) level_overlays
}.

(** The same, inside the loop over the overlay names of the level
    [levelName], when the names [names] are done. *)
Record overlays_building (w : Webmap) (s0 : World)
    (done : list (string * Level.t)) (levelName : string)
    (names : list string) (o : Overlays) (s : World) : Prop := {
  og_next : next_id s0 <= next_id s;
  og_calls :
    path_calls s
    = path_calls s0 ++ flat_map (overlay_level_calls w) done
      ++ List.map (fun layerName => (mapName w, levelName, Some layerName))
           names;
  og_visuals :
    exists vs, visuals s = visuals s0 ++ vs /\ Forall (overlay_shape w) vs
               /\ incl (all_overlays o) vs;
  og_wf : Obj.wf o;
  og_keys :
    forall k, In k (Obj.keys o) <-> In k (Obj.keys done) \/ k = levelName;
  og_nodup : NoDup (List.map (@L.stamp Bounds) (all_overlays o));
  og_range :
    forall x, In x (all_overlays o) -> next_id s0 <= L.stamp x < next_id s;
  og_levels :
    forall k level_overlays, k <> levelName ->
      Obj.get k o = Some level_overlays ->
      level_overlays_ok w k (tl (Map.layers (map w))) level_overlays;
  og_level :
    exists level_overlays,
      Obj.get levelName o = Some level_overlays
      /\ level_overlays_ok w levelName names level_overlays
}.

(** What [_getOverlays] has done when it throws. *)
Record overlays_thrown (w : Webmap) (s0 : World) (e : Error) (s : World)
  : Prop := {
  ot_error :
    e = TypeError "Cannot read properties of undefined (reading 'display')";
  ot_unconfigured : configured w = false;
  ot_levels : Map.levels (map w) <> [];
  ot_visuals :
    exists vs, visuals s = visuals s0 ++ vs /\ Forall (overlay_shape w) vs;
  ot_calls :
    exists calls rest,
      path_calls s = path_calls s0 ++ calls
      /\ overlay_calls w = calls ++ rest
}.

(** Two web maps with the same description, configuration and path
    getter. *)
Definition same_setup (w w' : Webmap) : Prop :=
  _map w = _map w' /\ _config w = _config w'
  /\ _pathGetter w = _pathGetter w'.

(** The view once [initialize] has set its bounds. *)
Definition prepared_view (params : WebmapParameters) : L.Map Bounds :=
  let b := Map.bounds (fst (param_map params)) in
  L.fitBounds b (L.setMaxBounds b (param_webmap params)).

(** What [initialize] establishes, from the world [s] to the world
    [s']. *)
Record initialized (params : WebmapParameters) (s : World) (w : Webmap)
    (s' : World) : Prop := {
  init_setup : same_setup (Webmap_new params) w;
  init_layers :
    exists s1,
      baseLayers_built w s (Map.levels (map w)) (_baseLayers w) s1
      /\ overlays_built w s1 (Map.levels (map w)) (_overlays w) s';
  init_main :
    _mainBaseLayer w
    = match Obj.get (Map.mainLevel (map w)) (_baseLayers w) with
      | Some g => Some (g, Map.mainLevel (map w))
      | None => None
      end;
  init_control :
    _layersControl w
    = base_entries_of (_baseLayers w)
      ++ match _mainBaseLayer w with
         | Some (_, layerName) => target_entries layerName (_overlays w)
         | None => []
         end;
  init_view :
    _webmap w
    = L.on "baselayerchange"
        match _mainBaseLayer w with
        | Some (g, _) => L.map_addLayer g (prepared_view params)
        | None => prepared_view params
        end
}.

(** [l'] keeps some of the elements of [l], each as often at most. *)
Definition kept {A : Type} (l' l : list A) : Prop :=
  exists dropped, Permutation l (dropped ++ l').

(** ** Vocabulary for the rest of the class *)

(** The location a visual is loaded from, for a call of the path getter:
    the result of the call, and under [Tiles] settings the tile template
    after it. *)
Definition path_of (g : FileLayerPathGetter) (c : PathCall) : string :=
  g (fst (fst c)) (snd (fst c)) (snd c).

Definition call_url (w : Webmap) (c : PathCall) : string :=
  match tiles_of (_config w) with
  | Some _ => (path_of (_pathGetter w) c ++ tile_suffix)%string
  | None => path_of (_pathGetter w) c
  end.

(** What has happened in the world between [s0] and [s]: some calls of the
    path getter and as many visuals, one per call and in the same order,
    each loaded from the location of its call; the visuals are new objects,
    all different. *)
Definition built_since (w : Webmap) (s0 s : World) : Prop :=
  exists cs vs,
    path_calls s = path_calls s0 ++ cs
    /\ visuals s = visuals s0 ++ vs
    /\ Forall2 (fun c v => url_of v = call_url w c) cs vs
    /\ next_id s0 <= next_id s
    /\ (forall v, In v vs -> next_id s0 <= L.stamp v < next_id s)
    /\ NoDup (List.map (@L.stamp Bounds) vs).

(** A computation that only does that, however it completes. *)
Definition builds_only {A : Type} (w : Webmap) (m : M A) : Prop :=
  forall s, built_since w s (snd (m s)).

(** The base layer of the level [levelName]: the underlays named by the
    level, in their order, and the primary visual after them. *)
Definition base_group_of (w : Webmap) (levelName : string) (level : Level.t)
    (g : Layer) : Prop :=
  exists us b,
    g = L.LayerGroup (L.stamp g) (us ++ [b])
    /\ Forall2 (fun u l => l = underlay_of w u (L.stamp l))
         (underlay_names level) us
    /\ b = baseLayer_of w levelName (L.stamp b).



(** The control of a web map in use: the entries of the base layers and,
    after them, the entries of the overlays of one level at most. *)
Definition control_in_shape (b : BaseLayers) (o : Overlays)
    (c : L.Control Bounds) : Prop :=
  exists T,
    c = base_entries_of b ++ T
    /\ (T = [] \/ exists k, T = target_entries k o).

(** The calls of the builder. *)
Inductive BuilderCall : Type :=
| SetAttributionPrefix (prefix : string)
| AddLayer (layer : Layer).

Definition builder_call (b : WebmapBuilder) (c : BuilderCall) : WebmapBuilder :=
  match c with
  | SetAttributionPrefix prefix => andSetAttributionPrefix prefix b
  | AddLayer layer => andAddLayer layer b
  end.

Definition view_call (v : L.Map Bounds) (c : BuilderCall) : L.Map Bounds :=
  match c with
  | SetAttributionPrefix prefix => L.setPrefix prefix v
  | AddLayer layer => L.map_addLayer layer v
  end.

Definition with_param_webmap (v : L.Map Bounds) (p : WebmapParameters)
  : WebmapParameters :=
  {| param_webmap := v; param_config := param_config p;
     param_map := param_map p; param_pathGetter := param_pathGetter p |}.

(** ** Ordinary names *)

(** The program uses objects as dictionaries keyed by level names and by
    display labels.  Such a name is an ordinary key unless it is
    ["__proto__"]. *)
Definition plain_levels (w : Webmap) : Prop :=
  ~ In "__proto__" (Obj.keys (Map.levels (map w))).

Definition plain_labels (w : Webmap) : Prop :=
  ~ In "__proto__" (overlay_labels w).

Definition plain_names (w : Webmap) : Prop :=
  plain_levels w /\ plain_labels w.

Definition plain_namesb (w : Webmap) : bool :=
  negb (existsb (String.eqb "__proto__") (Obj.keys (Map.levels (map w))))
  && negb (existsb (String.eqb "__proto__") (overlay_labels w)).




(** Two web maps that differ in the view at most. *)
Definition same_but_view (w w' : Webmap) : Prop :=
  with_webmap (_webmap w) w' = w.

End Kartograf.

Arguments Throw {A} e.


(* ================================================================== *)
(** * A worked configuration *)
(* ================================================================== *)

Module Demo.

Definition Bounds : Type := ((Z * Z) * (Z * Z))%type.

Definition B : Bounds := ((0, 0), (1024, 1024))%Z.

Definition show (layerName : option string) : string :=
  match layerName with Some n => n | None => "undefined" end.

Definition getLayerFolder : FileLayerPathGetter :=
  fun m l y => (m ++ "/" ++ l ++ "/" ++ show y)%string.

Definition getLayerImage : FileLayerPathGetter :=
  fun m l y => (m ++ "/" ++ l ++ "/" ++ show y ++ ".png")%string.

Definition view0 : L.Map Bounds :=
  {| L.maxBounds := None; L.fitted := None; L.shown := [];
     L.attributionPrefix := None; L.listeners := [] |}.

Definition world0 : World Bounds :=
  {| next_id := 0; path_calls := []; visuals := [] |}.

Definition levels : Obj.t Level.t :=
  Obj.of_list
    [("L1", {| Level.underlays := Some [] |});
     ("L2", {| Level.underlays := Some ["basement"] |})].

Definition station (layers : list string) (levels : Obj.t Level.t)
    (mainLevel : string) : MapWithName Bounds :=
  ({| Map.bounds := B; Map.layers := layers; Map.levels := levels;
      Map.mainLevel := mainLevel |}, "station").

Definition config_layers (l : list (string * string))
  : Obj.t Config.LayerConfig :=
  Obj.of_list (List.map (fun kv => (fst kv, {| Config.display := snd kv |})) l).

Definition params (settings : option Config.LayerSettings)
    (labels : list (string * string)) (m : MapWithName Bounds)
  : WebmapParameters Bounds :=
  {| param_webmap := view0;
     param_config :=
       {| Config.layerSettings := settings;
          Config.layers := config_layers labels |};
     param_map := m;
     param_pathGetter := None |}.

Abbreviation new p := (Webmap_new getLayerFolder getLayerImage p).

(** The scenario of the specification: tiles of size 256, two levels, two
    overlays. *)
Definition tiled : WebmapParameters Bounds :=
  params (Some (Config.Tiles 256))
    [("floor", "Floor"); ("electrical", "Electrical"); ("plumbing", "Plumbing")]
    (station ["floor"; "electrical"; "plumbing"] levels "L1").




(** A main level that is not a level. *)
Definition no_main : WebmapParameters Bounds :=
  params (Some (Config.Tiles 256))
    [("floor", "Floor"); ("electrical", "Electrical")]
    (station ["floor"; "electrical"] levels "Roof").


(** The run of [initialize] on a fresh web map, its final web map and
    its final world. *)
Definition run (p : WebmapParameters Bounds)
  : Completion (Webmap Bounds) * World Bounds :=
  initialize (new p) world0.

Definition final (p : WebmapParameters Bounds) : Webmap Bounds :=
  match fst (run p) with
  | Normal w => w
  | Throw _ => new p
  end.

Definition world (p : WebmapParameters Bounds) : World Bounds := snd (run p).

(** A control with which one overlay of the level ["L2"], which is not
    the level shown, has been registered twice. *)
Definition registered_twice : L.Control Bounds :=
  match Obj.get "L2" (_overlays (final tiled)) with
  | Some o =>
      match Obj.get "Electrical" o with
      | Some x =>
          L.addOverlay x "Electrical"
            (L.addOverlay x "Electrical" L.control_layers)
      | None => []
      end
  | None => []
  end.

End Demo.

Unset Implicit Arguments.

(* ================================================================== *)
(** * Facts about lists *)
(* ================================================================== *)

Section Kept.

Context {A : Type}.

Lemma kept_refl (l : list A) : kept l l.
Proof. exists []. reflexivity. Qed.

Lemma kept_nil (l : list A) : kept [] l.
Proof. exists l. now rewrite app_nil_r. Qed.

Lemma kept_trans (l1 l2 l3 : list A) : kept l1 l2 -> kept l2 l3 -> kept l1 l3.
Proof.
  intros [d1 H1] [d2 H2]. exists (d2 ++ d1).
  rewrite H2, H1. now rewrite app_assoc.
Qed.

Lemma kept_perm (l1 l1' l2 l2' : list A) :
  Permutation l1 l1' -> Permutation l2 l2' -> kept l1 l2 -> kept l1' l2'.
Proof.
  intros P1 P2 [d H]. exists d. now rewrite <- P2, <- P1.
Qed.

Lemma kept_app (l1 l1' l2 l2' : list A) :
  kept l1 l1' -> kept l2 l2' -> kept (l1 ++ l2) (l1' ++ l2').
Proof.
  intros [d1 H1] [d2 H2]. exists (d1 ++ d2).
  rewrite H1, H2. rewrite <- !app_assoc. apply Permutation_app_head.
  rewrite !app_assoc. apply Permutation_app_tail. apply Permutation_app_comm.
Qed.

Lemma kept_in (l' l : list A) (x : A) : kept l' l -> In x l' -> In x l.
Proof.
  intros [d H] Hx. apply (Permutation_in x (Permutation_sym H)).
  apply in_or_app. now right.
Qed.

Lemma kept_map {B : Type} (f : A -> B) (l' l : list A) :
  kept l' l -> kept (List.map f l') (List.map f l).
Proof.
  intros [d H]. exists (List.map f d). rewrite <- map_app.
  now apply Permutation_map.
Qed.

Lemma kept_flat_map {B : Type} (f : A -> list B) (l' l : list A) :
  kept l' l -> kept (flat_map f l') (flat_map f l).
Proof.
  intros [d H]. exists (flat_map f d). rewrite <- flat_map_app.
  now apply Permutation_flat_map.
Qed.

Lemma kept_NoDup (l' l : list A) : kept l' l -> NoDup l -> NoDup l'.
Proof.
  intros [d H] Hnd. apply (Permutation_NoDup H) in Hnd.
  now apply NoDup_app_remove_l in Hnd.
Qed.

Lemma kept_Forall (P : A -> Prop) (l' l : list A) :
  kept l' l -> Forall P l -> Forall P l'.
Proof.
  intros Hk HF. apply Forall_forall. intros x Hx.
  apply (proj1 (Forall_forall P l) HF). eapply kept_in; eauto.
Qed.

End Kept.


(* ================================================================== *)
(** * Facts about objects *)
(* ================================================================== *)

Module ObjFacts.
Section Facts.

Context {V : Type}.
Implicit Types (o : Obj.t V) (k : string) (v : V).

Lemma get_none_iff k o : Obj.get k o = None <-> ~ In k (Obj.keys o).
Proof.
  induction o as [|[k' v'] o IH]; simpl.
  - tauto.
  - destruct (String.eqb_spec k k') as [->|Hne].
    + split; [discriminate | intros H; exfalso; apply H; now left].
    + rewrite IH. split; [intros H [E|HI]; [congruence | tauto] | tauto].
Qed.

Lemma has_true_iff k o : Obj.has k o = true <-> In k (Obj.keys o).
Proof.
  unfold Obj.has. destruct (Obj.get k o) eqn:E.
  - split; [intros _ | reflexivity].
    destruct (in_dec string_dec k (Obj.keys o)) as [H|H]; [exact H|].
    apply get_none_iff in H. congruence.
  - apply get_none_iff in E. split; [discriminate | tauto].
Qed.

Lemma has_false_iff k o : Obj.has k o = false <-> Obj.get k o = None.
Proof.
  unfold Obj.has. destruct (Obj.get k o); split; congruence.
Qed.

Lemma get_in k v o : Obj.get k o = Some v -> In (k, v) o.
Proof.
  induction o as [|[k' v'] o IH]; simpl; [discriminate|].
  destruct (String.eqb_spec k k') as [->|Hne].
  - intros [= ->]. now left.
  - intros H. right. auto.
Qed.

Lemma in_get k v o : Obj.wf o -> In (k, v) o -> Obj.get k o = Some v.
Proof.
  unfold Obj.wf.
  induction o as [|[k' v'] o IH]; simpl; [tauto|].
  intros Hnd [E|HI].
  - injection E as -> ->. now rewrite String.eqb_refl.
  - inversion Hnd as [|? ? Hni Hnd']; subst.
    destruct (String.eqb_spec k k') as [->|Hne].
    + exfalso. apply Hni. change k' with (fst (k', v)). now apply in_map.
    + auto.
Qed.

(** The property read by [get] is the first one with that name. *)
Lemma get_split k v o :
  Obj.get k o = Some v ->
  exists a b, o = a ++ (k, v) :: b /\ ~ In k (Obj.keys a).
Proof.
  induction o as [|[k' v'] o IH]; simpl; [discriminate|].
  destruct (String.eqb_spec k k') as [->|Hne].
  - intros [= ->]. exists [], o. split; [reflexivity | simpl; tauto].
  - intros H. destruct (IH H) as (a & b & -> & Hni).
    exists ((k', v') :: a), b. split; [reflexivity|].
    simpl. intros [E|HI]; [congruence | tauto].
Qed.

Lemma replace_split k v v0 a b :
  ~ In k (Obj.keys a) ->
  Obj.replace k v (a ++ (k, v0) :: b) = a ++ (k, v) :: b.
Proof.
  induction a as [|[k' v'] a IH]; simpl; intros Hni.
  - now rewrite String.eqb_refl.
  - destruct (String.eqb_spec k k') as [->|Hne]; [tauto|].
    rewrite IH; tauto.
Qed.

Lemma insert_index_perm n k v o :
  Permutation (Obj.insert_index n k v o) ((k, v) :: o).
Proof.
  induction o as [|[k' v'] o IH]; simpl; [reflexivity|].
  destruct (Obj.array_index k') as [n'|]; [|reflexivity].
  destruct (n' <? n)%N; [|reflexivity].
  rewrite IH. apply perm_swap.
Qed.

(** Assignment to a new name adds one property. *)
Lemma set_new k v o :
  Obj.get k o = None -> Permutation (Obj.set k v o) ((k, v) :: o).
Proof.
  intros H. unfold Obj.set.
  apply has_false_iff in H. rewrite H.
  destruct (Obj.array_index k).
  - apply insert_index_perm.
  - rewrite Permutation_app_comm. reflexivity.
Qed.

(** Assignment to an existing name replaces its value where it is. *)
Lemma set_old k v v0 o :
  Obj.get k o = Some v0 ->
  exists a b, o = a ++ (k, v0) :: b /\ Obj.set k v o = a ++ (k, v) :: b
              /\ ~ In k (Obj.keys a).
Proof.
  intros H. destruct (get_split _ _ _ H) as (a & b & -> & Hni).
  exists a, b. split; [reflexivity|]. split; [|exact Hni].
  unfold Obj.set, Obj.has. rewrite H. now apply replace_split.
Qed.

(** In both cases [set] puts [(k, v)] next to properties the object
    had already. *)
Lemma set_kept k v o :
  exists rest, Permutation (Obj.set k v o) ((k, v) :: rest) /\ kept rest o
               /\ (Obj.get k o = None -> rest = o).
Proof.
  destruct (Obj.get k o) as [v0|] eqn:E.
  - destruct (set_old _ v _ _ E) as (a & b & -> & -> & _).
    exists (a ++ b). split; [|split; [|discriminate]].
    + symmetry. apply Permutation_middle.
    + exists [(k, v0)]. simpl. symmetry. apply Permutation_middle.
  - exists o. split; [now apply set_new|]. split; [|reflexivity].
    exists []. reflexivity.
Qed.

Lemma keys_set_iff k v o k' :
  In k' (Obj.keys (Obj.set k v o)) <-> k' = k \/ In k' (Obj.keys o).
Proof.
  unfold Obj.keys.
  destruct (Obj.get k o) as [v0|] eqn:E.
  - destruct (set_old _ v _ _ E) as (a & b & -> & -> & _).
    rewrite !map_app. simpl. rewrite !in_app_iff. simpl.
    intuition congruence.
  - rewrite (Permutation_in' (eq_refl k')
               (Permutation_map fst (set_new _ v _ E))).
    simpl. intuition congruence.
Qed.

Lemma keys_set_old k v o :
  Obj.has k o = true -> Obj.keys (Obj.set k v o) = Obj.keys o.
Proof.
  unfold Obj.has. destruct (Obj.get k o) as [v0|] eqn:E; [|discriminate].
  intros _. destruct (set_old _ v _ _ E) as (a & b & -> & -> & _).
  unfold Obj.keys. now rewrite !map_app.
Qed.

Lemma wf_empty : Obj.wf (@Obj.empty V).
Proof. constructor. Qed.

Lemma wf_set k v o : Obj.wf o -> Obj.wf (Obj.set k v o).
Proof.
  unfold Obj.wf, Obj.keys.
  destruct (Obj.get k o) as [v0|] eqn:E.
  - destruct (set_old _ v _ _ E) as (a & b & -> & -> & _).
    now rewrite !map_app.
  - intros Hnd.
    apply (Permutation_NoDup
             (Permutation_sym (Permutation_map fst (set_new _ v _ E)))).
    simpl. constructor; [|exact Hnd].
    now apply get_none_iff.
Qed.

Lemma get_set_eq k v o : Obj.get k (Obj.set k v o) = Some v.
Proof.
  destruct (Obj.get k o) as [v0|] eqn:E.
  - destruct (set_old _ v _ _ E) as (a & b & -> & -> & Hni).
    clear E. induction a as [|[k' v'] a IH]; simpl.
    + now rewrite String.eqb_refl.
    + simpl in Hni. destruct (String.eqb_spec k k') as [->|Hne]; [tauto|].
      apply IH. tauto.
  - unfold Obj.set. apply has_false_iff in E as Hh. rewrite Hh.
    destruct (Obj.array_index k) as [n|].
    + clear Hh. induction o as [|[k' v'] o IH]; simpl.
      * now rewrite String.eqb_refl.
      * simpl in E. destruct (String.eqb_spec k k') as [->|Hne];
          [discriminate|].
        destruct (Obj.array_index k') as [n'|]; simpl.
        -- destruct (n' <? n)%N; simpl.
           ++ destruct (String.eqb_spec k k'); [congruence | auto].
           ++ now rewrite String.eqb_refl.
        -- now rewrite String.eqb_refl.
    + clear Hh. induction o as [|[k' v'] o IH]; simpl.
      * now rewrite String.eqb_refl.
      * simpl in E. destruct (String.eqb_spec k k'); [discriminate | auto].
Qed.

Lemma get_set_neq k k' v o :
  k' <> k -> Obj.get k' (Obj.set k v o) = Obj.get k' o.
Proof.
  intros Hne.
  assert (Hcons : forall o', Obj.get k' ((k, v) :: o') = Obj.get k' o').
  { intros o'. simpl. destruct (String.eqb_spec k' k); [congruence | reflexivity]. }
  unfold Obj.set. destruct (Obj.has k o).
  - induction o as [|[k1 v1] o IH]; simpl; [reflexivity|].
    destruct (String.eqb_spec k k1) as [->|Hne1]; simpl.
    + destruct (String.eqb_spec k' k1); [congruence | reflexivity].
    + destruct (String.eqb_spec k' k1); [reflexivity | exact IH].
  - destruct (Obj.array_index k) as [n|].
    + induction o as [|[k1 v1] o IH]; [apply Hcons|].
      cbn [Obj.insert_index].
      destruct (Obj.array_index k1) as [n1|]; [|apply Hcons].
      destruct (n1 <? n)%N; [|apply Hcons].
      simpl. destruct (String.eqb_spec k' k1); [reflexivity | exact IH].
    + induction o as [|[k1 v1] o IH]; [apply Hcons|].
      simpl. destruct (String.eqb_spec k' k1); [reflexivity | exact IH].
Qed.


Lemma in_set k v o kv :
  In kv (Obj.set k v o) -> kv = (k, v) \/ In kv o.
Proof.
  destruct (set_kept k v o) as (rest & HP & Hk & _).
  intros H. apply (Permutation_in _ HP) in H. destruct H as [<-|H].
  - now left.
  - right. eapply kept_in; eauto.
Qed.

Lemma values_set_kept k v o :
  exists rest, Permutation (Obj.values (Obj.set k v o)) (v :: rest)
               /\ kept rest (Obj.values o).
Proof.
  destruct (set_kept k v o) as (rest & HP & Hk & _).
  exists (Obj.values rest). split.
  - apply (Permutation_map snd HP).
  - now apply kept_map.
Qed.

Lemma in_values_set k v o x :
  In x (Obj.values (Obj.set k v o)) -> x = v \/ In x (Obj.values o).
Proof.
  destruct (values_set_kept k v o) as (rest & HP & Hk).
  intros H. apply (Permutation_in _ HP) in H. destruct H as [<-|H].
  - now left.
  - right. eapply kept_in; eauto.
Qed.

Lemma in_values_get o x :
  In x (Obj.values o) -> exists k, In (k, x) o.
Proof.
  unfold Obj.values. intros H. apply in_map_iff in H.
  destruct H as ([k x'] & <- & H). now exists k.
Qed.

Lemma get_in_values k v o : Obj.get k o = Some v -> In v (Obj.values o).
Proof.
  intros H. apply get_in in H. unfold Obj.values.
  change v with (snd (k, v)). now apply in_map.
Qed.

End Facts.
End ObjFacts.

(* ================================================================== *)
(** * Facts about the layers control *)
(* ================================================================== *)

Section Control.

Variable Bounds : Type.

Local Abbreviation Layer := (L.Layer Bounds).
Local Abbreviation Control := (L.Control Bounds).
Implicit Types (c : Control) (l : Layer) (ls : list Layer).

Lemma stamps_app c1 c2 : stamps (c1 ++ c2) = stamps c1 ++ stamps c2.
Proof. apply map_app. Qed.

Lemma stamps_overlay_entries_of (o : Obj.t Layer) :
  stamps (overlay_entries_of o) = List.map (@L.stamp Bounds) (Obj.values o).
Proof.
  unfold stamps, overlay_entries_of, Obj.values. rewrite !map_map.
  reflexivity.
Qed.

Lemma without_app ids c1 c2 :
  without ids (c1 ++ c2) = without ids c1 ++ without ids c2.
Proof. apply filter_app. Qed.

Lemma times_registered_without_le ids l c :
  times_registered l (without ids c) <= times_registered l c.
Proof.
  unfold times_registered, without, stamps.
  induction c as [|e c IH]; simpl; [lia|].
  destruct (negb (existsb (Nat.eqb (L.stamp (L.layer e))) ids)); simpl;
    destruct (Nat.eq_dec (L.stamp (L.layer e)) (L.stamp l)); lia.
Qed.

(** [removeLayer] takes out every entry of a layer that is registered at
    most once. *)
Lemma removeLayer_once l c :
  times_registered l c <= 1 ->
  L.removeLayer l c = without [L.stamp l] c.
Proof.
  unfold times_registered, without, stamps.
  induction c as [|e c IH]; simpl; [reflexivity|].
  rewrite orb_false_r.
  destruct (Nat.eq_dec (L.stamp (L.layer e)) (L.stamp l)) as [E|NE].
  - rewrite E, Nat.eqb_refl. simpl. intros H.
    assert (H0 : count_occ Nat.eq_dec
                   (List.map (fun e => L.stamp (L.layer e)) c) (L.stamp l) = 0)
      by lia.
    clear IH H. induction c as [|e' c IH]; simpl; [reflexivity|].
    simpl in H0. rewrite orb_false_r.
    destruct (Nat.eq_dec (L.stamp (L.layer e')) (L.stamp l)) as [E'|NE'];
      [discriminate|].
    apply Nat.eqb_neq in NE'. rewrite NE'. simpl. f_equal. auto.
  - intros H. apply Nat.eqb_neq in NE. rewrite NE. simpl. f_equal.
    rewrite IH by exact H. f_equal.
Qed.

Lemma without_without ids1 ids2 c :
  without ids2 (without ids1 c) = without (ids1 ++ ids2) c.
Proof.
  unfold without. induction c as [|e c IH]; simpl; [reflexivity|].
  rewrite existsb_app.
  destruct (existsb (Nat.eqb (L.stamp (L.layer e))) ids1); simpl.
  - exact IH.
  - destruct (existsb (Nat.eqb (L.stamp (L.layer e))) ids2); simpl;
      [exact IH | now rewrite IH].
Qed.

(** Removing layers one by one, each registered at most once, leaves the
    entries of the other layers. *)
Lemma remove_all_once ls : forall c,
  (forall l, In l ls -> times_registered l c <= 1) ->
  remove_all ls c = without (List.map (@L.stamp Bounds) ls) c.
Proof.
  unfold remove_all.
  induction ls as [|l ls IH]; intros c H; simpl.
  - clear H. unfold without.
    induction c as [|e c IHc]; simpl; [reflexivity|].
    f_equal. exact IHc.
  - rewrite (removeLayer_once l c) by (apply H; now left).
    rewrite IH.
    + now rewrite without_without.
    + intros l' Hl'.
      eapply Nat.le_trans; [apply times_registered_without_le|].
      apply H. now right.
Qed.

Lemma remove_all_app ls1 ls2 c :
  remove_all (ls1 ++ ls2) c = remove_all ls2 (remove_all ls1 c).
Proof. unfold remove_all. apply fold_left_app. Qed.

(** A layer that no base-layer entry carries can be removed without
    touching the base-layer entries. *)
Lemma base_entries_removeLayer l c :
  (forall e, In e c -> L.overlay e = false ->
             L.stamp (L.layer e) <> L.stamp l) ->
  L.base_entries (L.removeLayer l c) = L.base_entries c.
Proof.
  unfold L.base_entries.
  induction c as [|e c IH]; simpl; intros H; [reflexivity|].
  destruct (Nat.eqb_spec (L.stamp (L.layer e)) (L.stamp l)) as [E|NE].
  - destruct (L.overlay e) eqn:Ho; simpl; [reflexivity|].
    exfalso. apply (H e); auto.
  - simpl. rewrite IH by (intros e' He'; apply H; now right).
    reflexivity.
Qed.

Lemma removeLayer_incl l c e : In e (L.removeLayer l c) -> In e c.
Proof.
  induction c as [|e' c IH]; simpl; [tauto|].
  destruct (Nat.eqb (L.stamp (L.layer e')) (L.stamp l)); simpl; tauto.
Qed.

Lemma base_entries_remove_all ls : forall c,
  (forall e, In e c -> L.overlay e = false ->
             ~ In (L.stamp (L.layer e)) (List.map (@L.stamp Bounds) ls)) ->
  L.base_entries (remove_all ls c) = L.base_entries c.
Proof.
  unfold remove_all.
  induction ls as [|l ls IH]; intros c H; simpl; [reflexivity|].
  rewrite IH.
  - apply base_entries_removeLayer. intros e He Ho E.
    apply (H e He Ho). simpl. now left.
  - intros e He Ho Hin. apply (H e (removeLayer_incl _ _ _ He) Ho).
    simpl. now right.
Qed.

Lemma base_entries_app c1 c2 :
  L.base_entries (c1 ++ c2) = L.base_entries c1 ++ L.base_entries c2.
Proof. apply filter_app. Qed.

Lemma overlay_entries_app c1 c2 :
  L.overlay_entries (c1 ++ c2) = L.overlay_entries c1 ++ L.overlay_entries c2.
Proof. apply filter_app. Qed.

Lemma base_entries_overlay_entries_of (o : Obj.t Layer) :
  L.base_entries (overlay_entries_of o) = [].
Proof. induction o as [|kv o IH]; simpl; auto. Qed.

Lemma overlay_entries_overlay_entries_of (o : Obj.t Layer) :
  L.overlay_entries (overlay_entries_of o) = overlay_entries_of o.
Proof. induction o as [|kv o IH]; simpl; [|rewrite IH]; reflexivity. Qed.

Lemma base_entries_base_entries_of (b : Obj.t Layer) :
  L.base_entries (base_entries_of b) = base_entries_of b.
Proof. induction b as [|kv b IH]; simpl; [|rewrite IH]; reflexivity. Qed.

Lemma overlay_entries_base_entries_of (b : Obj.t Layer) :
  L.overlay_entries (base_entries_of b) = [].
Proof. induction b as [|kv b IH]; simpl; auto. Qed.

Lemma base_entries_target_entries t (o : Obj.t (Obj.t Layer)) :
  L.base_entries (target_entries t o) = [].
Proof.
  unfold target_entries. destruct (Obj.get t o); [|reflexivity].
  apply base_entries_overlay_entries_of.
Qed.

Lemma overlay_entries_target_entries t (o : Obj.t (Obj.t Layer)) :
  L.overlay_entries (target_entries t o) = target_entries t o.
Proof.
  unfold target_entries. destruct (Obj.get t o); [|reflexivity].
  apply overlay_entries_overlay_entries_of.
Qed.

(** The overlay entries whose layers are all among [ids] disappear. *)
Lemma overlay_entries_without ids c :
  (forall e, In e c -> L.overlay e = true -> In (L.stamp (L.layer e)) ids) ->
  L.overlay_entries (without ids c) = [].
Proof.
  unfold L.overlay_entries, without.
  induction c as [|e c IH]; simpl; intros H; [reflexivity|].
  destruct (existsb (Nat.eqb (L.stamp (L.layer e))) ids) eqn:Ex; simpl.
  - apply IH. intros e' He'. apply H. now right.
  - destruct (L.overlay e) eqn:Ho.
    + exfalso. specialize (H e (or_introl eq_refl) Ho).
      assert (Ht : existsb (Nat.eqb (L.stamp (L.layer e))) ids = true).
      { apply existsb_exists. exists (L.stamp (L.layer e)).
        split; [exact H | apply Nat.eqb_refl]. }
      congruence.
    + apply IH. intros e' He'. apply H. now right.
Qed.

Lemma without_all ids c :
  (forall e, In e c -> In (L.stamp (L.layer e)) ids) -> without ids c = [].
Proof.
  unfold without. induction c as [|e c IH]; simpl; intros H; [reflexivity|].
  assert (Ht : existsb (Nat.eqb (L.stamp (L.layer e))) ids = true).
  { apply existsb_exists. exists (L.stamp (L.layer e)).
    split; [apply H; now left | apply Nat.eqb_refl]. }
  rewrite Ht. simpl. apply IH. intros e' He'. apply H. now right.
Qed.

Lemma times_registered_without_in ids l c :
  In (L.stamp l) ids -> times_registered l (without ids c) = 0.
Proof.
  intros Hin. unfold times_registered, without, stamps.
  induction c as [|e c IH]; simpl; [reflexivity|].
  destruct (existsb (Nat.eqb (L.stamp (L.layer e))) ids) eqn:Ex; simpl;
    [exact IH|].
  destruct (Nat.eq_dec (L.stamp (L.layer e)) (L.stamp l)) as [E|NE];
    [|exact IH].
  exfalso. rewrite E in Ex.
  assert (Ht : existsb (Nat.eqb (L.stamp l)) ids = true).
  { apply existsb_exists. exists (L.stamp l).
    split; [exact Hin | apply Nat.eqb_refl]. }
  congruence.
Qed.

Lemma times_registered_app l c1 c2 :
  times_registered l (c1 ++ c2)
  = times_registered l c1 + times_registered l c2.
Proof.
  unfold times_registered. rewrite stamps_app. apply count_occ_app.
Qed.

Lemma registered_onceb_spec (o : Obj.t (Obj.t Layer)) c :
  registered_onceb o c = true -> registered_once o c.
Proof.
  unfold registered_onceb, registered_once. rewrite forallb_forall.
  intros H l Hl. apply Nat.leb_le. now apply H.
Qed.

Lemma overlays_knownb_spec (o : Obj.t (Obj.t Layer)) c :
  overlays_knownb o c = true -> overlays_known o c.
Proof.
  unfold overlays_knownb, overlays_known. rewrite forallb_forall.
  intros H e He Ho. specialize (H e He). rewrite Ho in H. simpl in H.
  apply existsb_exists in H. destruct H as (id & Hid & E).
  apply Nat.eqb_eq in E. now rewrite E.
Qed.

End Control.

(* ================================================================== *)
(** * The layer factory *)
(* ================================================================== *)

Section Factory.

Variable Bounds : Type.

Local Abbreviation Layer := (L.Layer Bounds).
Local Abbreviation World := (World Bounds).
Local Abbreviation Webmap := (Webmap Bounds).
Local Abbreviation M := (M Bounds).

Local Notation "x <- m ;; k" := (bind m (fun x => k))
  (at level 61, m at next level, right associativity).

(** ** Rules of the weakest precondition *)

Lemma wp_ret {A : Type} (a : A) (Q : A -> World -> Prop) E s :
  Q a s -> wp (ret a) Q E s.
Proof. exact (fun H => H). Qed.

Lemma wp_bind {A B : Type} (m : M A) (f : A -> M B) Q E s :
  wp m (fun a s' => wp (f a) Q E s') E s -> wp (bind m f) Q E s.
Proof.
  unfold wp, bind. destruct (m s) as [[a|e] s']; exact (fun H => H).
Qed.

Lemma wp_mono {A : Type} (m : M A) (Q Q' : A -> World -> Prop)
    (E E' : Error -> World -> Prop) s :
  (forall a s', Q a s' -> Q' a s') ->
  (forall e s', E e s' -> E' e s') ->
  wp m Q E s -> wp m Q' E' s.
Proof.
  unfold wp. destruct (m s) as [[a|e] s']; auto.
Qed.

Lemma wp_run {A : Type} (m : M A) (Q : A -> World -> Prop) s :
  wp m Q (@no_throw Bounds) s ->
  exists a s', m s = (Normal a, s') /\ Q a s'.
Proof.
  unfold wp, no_throw. destruct (m s) as [[a|e] s']; [eauto | tauto].
Qed.

Lemma wp_of_run {A : Type} (m : M A) (Q : A -> World -> Prop) E s a s' :
  m s = (Normal a, s') -> Q a s' -> wp m Q E s.
Proof. unfold wp. now intros ->. Qed.

(** The rule of the loop: the invariant speaks of the elements done. *)
Lemma wp_for_each {A S : Type} (l : list A) (body : S -> A -> M S) E :
  forall (I : list A -> S -> World -> Prop),
  (forall pre x post acc s,
      l = pre ++ x :: post -> I pre acc s ->
      wp (body acc x) (I (pre ++ [x])) E s) ->
  forall acc s, I [] acc s -> wp (for_each l body acc) (I l) E s.
Proof.
  induction l as [|x l IH]; intros I Hbody acc s HI; simpl.
  - exact HI.
  - apply wp_bind.
    eapply wp_mono; [| intros e s' He; exact He
                     | apply (Hbody [] x l acc s eq_refl HI)].
    intros acc' s' HI'. simpl in HI'.
    apply (IH (fun pre => I (x :: pre))); [|exact HI'].
    intros pre y post acc0 s0 El HI0.
    apply (Hbody (x :: pre) y post acc0 s0); [|exact HI0].
    simpl. now rewrite El.
Qed.

Lemma for_each_app {A S : Type} (l1 l2 : list A) (body : S -> A -> M S) :
  forall acc s,
    for_each (l1 ++ l2) body acc s
    = (acc' <- for_each l1 body acc ;; for_each l2 body acc') s.
Proof.
  induction l1 as [|x l1 IH]; intros acc s; simpl.
  - reflexivity.
  - unfold bind in *. destruct (body acc x s) as [[a|e] s1].
    + apply IH.
    + reflexivity.
Qed.

(** ** The three construction sites *)

Lemma make_underlay_eq (w : Webmap) u s :
  make_underlay w u s
  = (Normal (underlay_of w u (next_id s)),
     allocated (underlay_of w u (next_id s))
       (mapName w, u, hd_error (Map.layers (map w))) s).
Proof.
  unfold make_underlay, underlay_of. destruct (tiles_of (_config w));
    reflexivity.
Qed.

Lemma make_baseLayer_eq (w : Webmap) k s :
  make_baseLayer w k s
  = (Normal (baseLayer_of w k (next_id s)),
     allocated (baseLayer_of w k (next_id s))
       (mapName w, k, hd_error (Map.layers (map w))) s).
Proof.
  unfold make_baseLayer, baseLayer_of. destruct (tiles_of (_config w));
    reflexivity.
Qed.

Lemma make_overlay_eq (w : Webmap) k n s :
  make_overlay w k n s
  = (Normal (overlay_of w k n (next_id s)),
     allocated (overlay_of w k n (next_id s)) (mapName w, k, Some n) s).
Proof.
  unfold make_overlay, overlay_of. destruct (tiles_of (_config w));
    reflexivity.
Qed.

Lemma underlay_of_shape (w : Webmap) u id :
  base_shape w (underlay_of w u id) /\ is_underlay (underlay_of w u id).
Proof.
  unfold base_shape, underlay_of. destruct (tiles_of (_config w)); simpl; auto.
Qed.

Lemma baseLayer_of_shape (w : Webmap) k id :
  base_shape w (baseLayer_of w k id) /\ ~ is_underlay (baseLayer_of w k id).
Proof.
  unfold base_shape, baseLayer_of.
  destruct (tiles_of (_config w)); simpl; split; auto; discriminate.
Qed.

Lemma overlay_of_shape (w : Webmap) k n id :
  overlay_shape w (overlay_of w k n id).
Proof.
  unfold overlay_shape, overlay_of. destruct (tiles_of (_config w)); simpl; auto.
Qed.

Lemma stamp_underlay_of (w : Webmap) u id : L.stamp (underlay_of w u id) = id.
Proof. unfold underlay_of. destruct (tiles_of (_config w)); reflexivity. Qed.

Lemma stamp_baseLayer_of (w : Webmap) k id : L.stamp (baseLayer_of w k id) = id.
Proof. unfold baseLayer_of. destruct (tiles_of (_config w)); reflexivity. Qed.

Lemma stamp_overlay_of (w : Webmap) k n id : L.stamp (overlay_of w k n id) = id.
Proof. unfold overlay_of. destruct (tiles_of (_config w)); reflexivity. Qed.

(** ** The underlays of one level *)

Lemma underlays_loop (w : Webmap) names : forall acc s,
  exists us s',
    for_each names
      (fun underlays underlayName =>
         underlay <- make_underlay w underlayName ;;
         ret (underlays ++ [underlay]))
      acc s
    = (Normal (acc ++ us), s')
    /\ List.length us = List.length names
    /\ Forall (fun u => base_shape w u /\ is_underlay u) us
    /\ next_id s' = next_id s + List.length names
    /\ path_calls s'
       = path_calls s
         ++ List.map (fun u => (mapName w, u, hd_error (Map.layers (map w))))
              names
    /\ visuals s' = visuals s ++ us.
Proof.
  induction names as [|u names IH]; intros acc s.
  - exists [], s. simpl. rewrite !app_nil_r. unfold ret.
    repeat split; auto.
  - simpl. unfold bind at 1. unfold bind at 1. rewrite make_underlay_eq.
    unfold ret at 1.
    destruct (IH (acc ++ [underlay_of w u (next_id s)])
                (allocated (underlay_of w u (next_id s))
                   (mapName w, u, hd_error (Map.layers (map w))) s))
      as (us & s' & Hrun & Hlen & Hshape & Hnext & Hcalls & Hvis).
    exists (underlay_of w u (next_id s) :: us), s'.
    rewrite Hrun. simpl in *. rewrite <- !app_assoc in *. simpl in *.
    repeat split; auto.
    + constructor; [apply underlay_of_shape | exact Hshape].
    + lia.
Qed.

(** ** The base layers *)

Lemma baseLayers_step_run (w : Webmap) bl k level s :
  exists us b s',
    baseLayers_step w bl (k, level) s
    = (Normal
         (Obj.set k
            (L.LayerGroup (S (next_id s + List.length (underlay_names level)))
               (us ++ [b]))
            bl),
       s')
    /\ List.length us = List.length (underlay_names level)
    /\ Forall (fun u => base_shape w u /\ is_underlay u) us
    /\ base_shape w b /\ ~ is_underlay b
    /\ next_id s' = S (S (next_id s + List.length (underlay_names level)))
    /\ path_calls s' = path_calls s ++ level_calls w (k, level)
    /\ visuals s' = visuals s ++ us ++ [b].
Proof.
  destruct (underlays_loop w (underlay_names level) [] s)
    as (us & s1 & Hrun & Hlen & Hshape & Hnext & Hcalls & Hvis).
  exists us, (baseLayer_of w k (next_id s1)).
  eexists.
  assert (Hloop :
    match Level.underlays level with
    | Some names =>
        for_each names
          (fun underlays underlayName =>
             underlay <- make_underlay w underlayName ;;
             ret (underlays ++ [underlay]))
          []
    | None => ret []
    end s = (Normal us, s1)).
  { unfold underlay_names in Hrun. destruct (Level.underlays level);
      exact Hrun. }
  unfold baseLayers_step. unfold bind at 1. rewrite Hloop.
  unfold bind at 1. rewrite make_baseLayer_eq.
  unfold bind at 1. unfold layerGroup, bind at 1, fresh, ret. simpl.
  rewrite Hnext, Hcalls, Hvis. unfold level_calls. simpl.
  rewrite <- !app_assoc.
  repeat split; auto; apply baseLayer_of_shape.
Qed.

Lemma baseLayers_built_nil (w : Webmap) s :
  baseLayers_built w s [] Obj.empty s.
Proof.
  constructor; simpl; auto.
  - now rewrite app_nil_r.
  - exists []. rewrite app_nil_r. repeat split; auto. tauto.
  - constructor.
  - tauto.
  - constructor.
  - tauto.
  - discriminate.
Qed.

Lemma _getBaseLayersForMap_built (w : Webmap) s :
  wp (_getBaseLayersForMap w)
    (baseLayers_built w s (Map.levels (map w))) (@no_throw Bounds) s.
Proof.
  unfold _getBaseLayersForMap.
  apply wp_for_each; [|apply baseLayers_built_nil].
  intros pre [k level] post bl s1 _ HI.
  destruct (baseLayers_step_run w bl k level s1)
    as (us & b & s2 & Hrun & Hlen & Hus & Hb & Hnb & Hnext & Hcalls & Hvis).
  eapply wp_of_run; [exact Hrun|].
  set (g := L.LayerGroup _ _) in *.
  assert (Hg : L.stamp g = S (next_id s1 + List.length (underlay_names level)))
    by reflexivity.
  destruct HI as [Inext Icalls (vs & Ivis & Ishape & Imem) Iwf Ikeys
                    Inodup Irange Igroups].
  destruct (ObjFacts.values_set_kept k g bl) as (rest & HP & Hk).
  constructor.
  - lia.
  - rewrite Hcalls, Icalls, flat_map_app. simpl.
    now rewrite app_nil_r, app_assoc.
  - exists (vs ++ us ++ [b]). split; [|split].
    + rewrite Hvis, Ivis. now rewrite <- app_assoc.
    + apply Forall_app. split; [exact Ishape|].
      apply Forall_app. split.
      * eapply Forall_impl; [|exact Hus]. now intros u [Hu _].
      * now constructor.
    + intros g' Hg'. apply ObjFacts.in_values_set in Hg'.
      destruct Hg' as [->|Hg'].
      * simpl. intros x Hx. apply in_or_app. now right.
      * intros x Hx. apply in_or_app. left. exact (Imem g' Hg' x Hx).
  - now apply ObjFacts.wf_set.
  - intros k'. rewrite ObjFacts.keys_set_iff, Ikeys.
    unfold Obj.keys. rewrite map_app, in_app_iff. simpl. intuition.
  - apply (Permutation_NoDup
             (Permutation_sym (Permutation_map (@L.stamp Bounds) HP))).
    simpl. constructor.
    + intros Hin. apply in_map_iff in Hin. destruct Hin as (g' & Eg & Hg').
      apply (kept_in _ _ _ Hk) in Hg'. apply Irange in Hg'. lia.
    + apply (kept_NoDup _ _ (kept_map (@L.stamp Bounds) _ _ Hk) Inodup).
  - intros g' Hg'. apply ObjFacts.in_values_set in Hg'.
    destruct Hg' as [->|Hg'].
    + lia.
    + apply Irange in Hg'. lia.
  - intros k' g' Hget.
    destruct (string_dec k' k) as [->|Hne].
    + rewrite ObjFacts.get_set_eq in Hget. injection Hget as <-.
      exists level. split; [apply in_or_app; right; now left|].
      exists us, b. repeat split; auto.
    + rewrite ObjFacts.get_set_neq in Hget by exact Hne.
      destruct (Igroups k' g' Hget) as (level' & Hin & Hok).
      exists level'. split; [apply in_or_app; now left | exact Hok].
Qed.

(** ** The overlays *)

Lemma all_overlays_app (a b : Overlays Bounds) :
  all_overlays (a ++ b) = all_overlays a ++ all_overlays b.
Proof. apply flat_map_app. Qed.

(** Replacing the overlays of a level replaces them in the list of all
    overlays. *)
Lemma all_overlays_set_old k (o o' : Obj.t Layer) (ov : Overlays Bounds) :
  Obj.get k ov = Some o ->
  exists A B,
    all_overlays ov = A ++ Obj.values o ++ B
    /\ all_overlays (Obj.set k o' ov) = A ++ Obj.values o' ++ B.
Proof.
  intros H. destruct (ObjFacts.set_old k o' o ov H) as (a & b & -> & -> & _).
  exists (all_overlays a), (all_overlays b).
  rewrite !all_overlays_app. simpl. auto.
Qed.

Lemma all_overlays_set_empty k (ov : Overlays Bounds) :
  kept (all_overlays (Obj.set k Obj.empty ov)) (all_overlays ov).
Proof.
  destruct (Obj.get k ov) as [o|] eqn:E.
  - destruct (all_overlays_set_old k o Obj.empty ov E) as (A & B & -> & ->).
    simpl. apply kept_app; [apply kept_refl|].
    exists (Obj.values o). reflexivity.
  - exists []. simpl.
    pose proof (ObjFacts.set_new k Obj.empty ov E) as HP.
    apply (Permutation_flat_map (fun kv => Obj.values (snd kv))) in HP.
    simpl in HP. symmetry. exact HP.
Qed.

Lemma all_overlays_step k d x (o : Obj.t Layer) (ov : Overlays Bounds) :
  Obj.get k ov = Some o ->
  exists rest,
    Permutation (all_overlays (Obj.set k (Obj.set d x o) ov)) (x :: rest)
    /\ kept rest (all_overlays ov).
Proof.
  intros H.
  destruct (all_overlays_set_old k o (Obj.set d x o) ov H)
    as (A & B & -> & ->).
  destruct (ObjFacts.values_set_kept d x o) as (rest & HP & Hk).
  exists (A ++ rest ++ B). split.
  - rewrite HP. simpl. symmetry. apply Permutation_middle.
  - apply kept_app; [apply kept_refl|].
    apply kept_app; [exact Hk | apply kept_refl].
Qed.


Lemma labels_of_app (w : Webmap) l1 l2 :
  labels_of w (l1 ++ l2) = labels_of w l1 ++ labels_of w l2.
Proof. apply flat_map_app. Qed.

Lemma overlays_step_run (w : Webmap) k ov n s layer o :
  Obj.get n (Config.layers (config w)) = Some layer ->
  Obj.get k ov = Some o ->
  overlays_step w k ov n s
  = (Normal
       (Obj.set k
          (Obj.set (Config.display layer) (overlay_of w k n (next_id s)) o)
          ov),
     allocated (overlay_of w k n (next_id s)) (mapName w, k, Some n) s).
Proof.
  intros Hl Ho. unfold overlays_step, bind. rewrite make_overlay_eq.
  now rewrite Hl, Ho.
Qed.

Lemma overlays_step_throw (w : Webmap) k ov n s :
  Obj.get n (Config.layers (config w)) = None ->
  overlays_step w k ov n s
  = (Throw (TypeError "Cannot read properties of undefined (reading 'display')"),
     allocated (overlay_of w k n (next_id s)) (mapName w, k, Some n) s).
Proof.
  intros Hl. unfold overlays_step, bind. rewrite make_overlay_eq.
  now rewrite Hl.
Qed.

Lemma overlays_built_nil (w : Webmap) s :
  overlays_built w s [] Obj.empty s.
Proof.
  constructor; simpl; auto.
  - now rewrite app_nil_r.
  - exists []. rewrite app_nil_r. repeat split; auto. intros x [].
  - constructor.
  - tauto.
  - constructor.
  - tauto.
  - discriminate.
Qed.

(** Entering the loop over the overlay names of a level. *)
Lemma overlays_building_start (w : Webmap) s0 done k ov s :
  overlays_built w s0 done ov s ->
  overlays_building w s0 done k [] (Obj.set k Obj.empty ov) s.
Proof.
  intros [Inext Icalls (vs & Ivis & Ishape & Iincl) Iwf Ikeys Inodup Irange
            Ilevels].
  pose proof (all_overlays_set_empty k ov) as Hk.
  constructor.
  - exact Inext.
  - simpl. now rewrite app_nil_r.
  - exists vs. repeat split; auto.
    intros x Hx. apply Iincl. eapply kept_in; eauto.
  - now apply ObjFacts.wf_set.
  - intros k'. rewrite ObjFacts.keys_set_iff, Ikeys. tauto.
  - apply (kept_NoDup _ _ (kept_map (@L.stamp Bounds) _ _ Hk) Inodup).
  - intros x Hx. apply Irange. eapply kept_in; eauto.
  - intros k' o Hne Hget.
    rewrite ObjFacts.get_set_neq in Hget by exact Hne. eauto.
  - exists Obj.empty. split; [apply ObjFacts.get_set_eq|].
    split; [constructor|]. simpl. split; [tauto | intros kv []].
Qed.

(** Leaving it. *)
Lemma overlays_building_end (w : Webmap) s0 done k level ov s :
  overlays_building w s0 done k (tl (Map.layers (map w))) ov s ->
  overlays_built w s0 (done ++ [(k, level)]) ov s.
Proof.
  intros [Inext Icalls Ivis Iwf Ikeys Inodup Irange Ilevels
            (o & Hget & Hok)].
  constructor; auto.
  - rewrite Icalls, flat_map_app. simpl. now rewrite app_nil_r.
  - intros k'. rewrite Ikeys. unfold Obj.keys.
    rewrite map_app, in_app_iff. simpl. intuition.
  - intros k' o' Hget'. destruct (string_dec k' k) as [->|Hne].
    + rewrite Hget in Hget'. now injection Hget' as <-.
    + eauto.
Qed.

(** One overlay name. *)
Lemma overlays_building_step (w : Webmap) s0 done k names n ov s :
  In n (tl (Map.layers (map w))) ->
  Obj.get n (Config.layers (config w)) <> None ->
  overlays_building w s0 done k names ov s ->
  wp (overlays_step w k ov n)
    (overlays_building w s0 done k (names ++ [n])) (@no_throw Bounds) s.
Proof.
  intros Hin Hcfg
    [Inext Icalls (vs & Ivis & Ishape & Iincl) Iwf Ikeys Inodup Irange
       Ilevels (o & Hget & Howf & Hokeys & Hoentries)].
  destruct (Obj.get n (Config.layers (config w))) as [layer|] eqn:El;
    [clear Hcfg | congruence].
  eapply wp_of_run; [apply (overlays_step_run w k ov n s layer o El Hget)|].
  set (x := overlay_of w k n (next_id s)).
  assert (Hx : L.stamp x = next_id s) by apply stamp_overlay_of.
  destruct (all_overlays_step k (Config.display layer) x o ov Hget)
    as (rest & HP & Hk).
  constructor; simpl.
  - lia.
  - rewrite Icalls, map_app. simpl. now rewrite <- !app_assoc.
  - exists (vs ++ [x]). split; [|split].
    + rewrite Ivis. now rewrite <- app_assoc.
    + apply Forall_app. split; [exact Ishape|].
      constructor; [apply overlay_of_shape | constructor].
    + intros y Hy. apply (Permutation_in _ HP) in Hy.
      apply in_or_app. destruct Hy as [<-|Hy]; [right; now left|].
      left. apply Iincl. eapply kept_in; eauto.
  - now apply ObjFacts.wf_set.
  - intros k'. rewrite ObjFacts.keys_set_old; [apply Ikeys|].
    unfold Obj.has. now rewrite Hget.
  - apply (Permutation_NoDup
             (Permutation_sym (Permutation_map (@L.stamp Bounds) HP))).
    simpl. constructor.
    + intros Hi. apply in_map_iff in Hi. destruct Hi as (y & Ey & Hy).
      apply (kept_in _ _ _ Hk) in Hy. apply Irange in Hy. lia.
    + apply (kept_NoDup _ _ (kept_map (@L.stamp Bounds) _ _ Hk) Inodup).
  - intros y Hy. apply (Permutation_in _ HP) in Hy.
    destruct Hy as [<-|Hy]; [lia|].
    apply (kept_in _ _ _ Hk) in Hy. apply Irange in Hy. lia.
  - intros k' o' Hne Hget'.
    rewrite ObjFacts.get_set_neq in Hget' by exact Hne. eauto.
  - exists (Obj.set (Config.display layer) x o).
    split; [apply ObjFacts.get_set_eq|].
    split; [now apply ObjFacts.wf_set|]. split.
    + intros d. rewrite ObjFacts.keys_set_iff, Hokeys, labels_of_app.
      rewrite in_app_iff. unfold labels_of at 3. simpl.
      change (config w) with (_config w) in El |- *. rewrite El. simpl.
      intuition.
    + intros kv Hkv. apply ObjFacts.in_set in Hkv.
      destruct Hkv as [->|Hkv]; [|auto].
      exists n, layer. simpl. repeat split; auto.
      now rewrite Hx.
Qed.

(** One overlay name without configuration. *)
Lemma overlays_building_throw (w : Webmap) s0 done k level post names n rest
    ov s :
  Map.levels (map w) = done ++ (k, level) :: post ->
  tl (Map.layers (map w)) = names ++ n :: rest ->
  Obj.get n (Config.layers (config w)) = None ->
  overlays_building w s0 done k names ov s ->
  overlays_thrown w s0
    (TypeError "Cannot read properties of undefined (reading 'display')")
    (allocated (overlay_of w k n (next_id s)) (mapName w, k, Some n) s).
Proof.
  intros Elv Etl Hn
    [Inext Icalls (vs & Ivis & Ishape & Iincl) _ _ _ _ _ _].
  constructor.
  - reflexivity.
  - unfold configured. rewrite Etl, forallb_app. simpl.
    unfold Obj.has. rewrite Hn. simpl. apply andb_false_r.
  - rewrite Elv. now destruct done.
  - exists (vs ++ [overlay_of w k n (next_id s)]). simpl. split.
    + rewrite Ivis. now rewrite <- app_assoc.
    + apply Forall_app. split; [exact Ishape|].
      constructor; [apply overlay_of_shape | constructor].
  - exists (flat_map (overlay_level_calls w) done
            ++ List.map (fun layerName => (mapName w, k, Some layerName))
                 (names ++ [n])),
           (List.map (fun layerName => (mapName w, k, Some layerName)) rest
            ++ flat_map (overlay_level_calls w) post).
    simpl. split.
    + rewrite Icalls, map_app. simpl. now rewrite <- !app_assoc.
    + unfold overlay_calls. rewrite Elv, flat_map_app. simpl.
      unfold overlay_level_calls at 2. simpl. rewrite Etl.
      rewrite !map_app. simpl. rewrite <- !app_assoc. reflexivity.
Qed.

(** [_getOverlays], whether it completes or throws. *)
Lemma _getOverlays_wp (w : Webmap) s :
  wp (_getOverlays w)
    (overlays_built w s (Map.levels (map w))) (overlays_thrown w s) s.
Proof.
  unfold _getOverlays.
  apply wp_for_each; [|apply overlays_built_nil].
  intros done [k level] post ov s1 Elv HI. simpl.
  eapply wp_mono;
    [ intros ov' s' H; exact (overlays_building_end w s done k level ov' s' H)
    | intros e s' H; exact H |].
  apply wp_for_each; [|now apply overlays_building_start].
  intros names n rest ov' s' Enames HJ.
  destruct (Obj.get n (Config.layers (config w))) as [layer|] eqn:El.
  - eapply wp_mono;
      [intros a s2 H; exact H | intros e s2 H; exact (False_ind _ H) |].
    apply overlays_building_step; [| |exact HJ].
    + rewrite Enames. apply in_or_app. right. now left.
    + rewrite El. discriminate.
  - unfold wp. rewrite (overlays_step_throw w k ov' n s' El).
    exact (overlays_building_throw w s done k level post names n rest ov' s'
             Elv Enames El HJ).
Qed.

Lemma _getOverlays_built (w : Webmap) s :
  configured w = true ->
  wp (_getOverlays w)
    (overlays_built w s (Map.levels (map w))) (@no_throw Bounds) s.
Proof.
  intros Hcfg.
  eapply wp_mono; [intros a s' H; exact H | | apply _getOverlays_wp].
  intros e s' [_ Hun _ _ _]. congruence.
Qed.

(** Without levels nothing is built and nothing is read. *)
Lemma _getOverlays_no_levels (w : Webmap) s :
  Map.levels (map w) = [] ->
  _getOverlays w s = (Normal Obj.empty, s).
Proof. unfold _getOverlays. now intros ->. Qed.

(** An overlay name without configuration makes the first level throw. *)
Lemma first_unconfigured (w : Webmap) :
  configured w = false ->
  exists pre n post,
    tl (Map.layers (map w)) = pre ++ n :: post
    /\ (forall m, In m pre -> Obj.get m (Config.layers (config w)) <> None)
    /\ Obj.get n (Config.layers (config w)) = None.
Proof.
  unfold configured. generalize (tl (Map.layers (map w))) as l.
  induction l as [|m l IH]; simpl; [discriminate|].
  destruct (Obj.has m (Config.layers (config w))) eqn:Hm; simpl.
  - intros H. destruct (IH H) as (pre & n & post & -> & Hpre & Hn).
    exists (m :: pre), n, post. split; [reflexivity|]. split; [|exact Hn].
    intros m' [<-|Hm']; [|auto].
    unfold Obj.has in Hm.
    destruct (Obj.get m (Config.layers (config w))); congruence.
  - intros _. exists [], m, l. split; [reflexivity|].
    split; [intros m' []|]. now apply ObjFacts.has_false_iff.
Qed.

Lemma _getOverlays_throws (w : Webmap) s :
  Map.levels (map w) <> [] ->
  configured w = false ->
  exists s',
    _getOverlays w s
    = (Throw (TypeError "Cannot read properties of undefined (reading 'display')"),
       s').
Proof.
  intros Hlevels Hcfg.
  destruct (first_unconfigured w Hcfg) as (pre & n & post & Etl & Hpre & Hn).
  unfold _getOverlays.
  destruct (Map.levels (map w)) as [|[k level] levels]; [congruence|].
  simpl. rewrite Etl.
  assert (Hrun :
    wp (for_each pre (overlays_step w k) (Obj.set k Obj.empty Obj.empty))
       (overlays_building w s [] k pre) (@no_throw Bounds) s).
  { apply wp_for_each.
    - intros names m rest ov' s' Enames HJ.
      apply overlays_building_step; [| |exact HJ].
      + rewrite Etl, Enames. rewrite <- app_assoc.
        apply in_or_app. right. now left.
      + apply Hpre. rewrite Enames. apply in_or_app. right. now left.
    - apply overlays_building_start. apply overlays_built_nil. }
  apply wp_run in Hrun. destruct Hrun as (ov' & s' & Hrun & _).
  unfold bind at 1. rewrite for_each_app. unfold bind at 1. rewrite Hrun.
  simpl. unfold bind at 1. rewrite (overlays_step_throw w k ov' n s' Hn).
  eauto.
Qed.

(** ** Registration with the control *)

Lemma addBaseLayers_fold (b : Obj.t Layer) : forall c,
  fold_left (fun c kv => L.addBaseLayer (snd kv) (fst kv) c) b c
  = c ++ base_entries_of b.
Proof.
  induction b as [|kv b IH]; intros c; simpl.
  - now rewrite app_nil_r.
  - rewrite IH. unfold L.addBaseLayer. now rewrite <- app_assoc.
Qed.

Lemma addOverlays_fold (o : Obj.t Layer) : forall c,
  fold_left (fun c kv => L.addOverlay (snd kv) (fst kv) c) o c
  = c ++ overlay_entries_of o.
Proof.
  induction o as [|kv o IH]; intros c; simpl.
  - now rewrite app_nil_r.
  - rewrite IH. unfold L.addOverlay. now rewrite <- app_assoc.
Qed.

Lemma removeLayers_fold (o : Obj.t Layer) : forall c,
  fold_left (fun c kv => L.removeLayer (snd kv) c) o c
  = remove_all (Obj.values o) c.
Proof.
  unfold remove_all. induction o as [|kv o IH]; intros c; simpl; auto.
Qed.

Lemma removeOverlays_fold (ov : Overlays Bounds) : forall c,
  fold_left
    (fun c level =>
       fold_left (fun c kv => L.removeLayer (snd kv) c) (snd level) c)
    ov c
  = remove_all (all_overlays ov) c.
Proof.
  induction ov as [|[k o] ov IH]; intros c; simpl; [reflexivity|].
  rewrite IH, removeLayers_fold. now rewrite remove_all_app.
Qed.

(** [_updateOverlays] in one equation: every overlay of every level is
    removed, then the overlays of the target level are added. *)
Lemma _updateOverlays_control t (w : Webmap) :
  _layersControl (_updateOverlays t w)
  = remove_all (all_overlays (_overlays w)) (_layersControl w)
    ++ target_entries t (_overlays w).
Proof.
  unfold _updateOverlays, target_entries. simpl.
  rewrite removeOverlays_fold.
  destruct (Obj.get t (_overlays w)).
  - apply addOverlays_fold.
  - now rewrite app_nil_r.
Qed.

Lemma _updateOverlays_eq t (w : Webmap) :
  _updateOverlays t w
  = with_layersControl
      (remove_all (all_overlays (_overlays w)) (_layersControl w)
       ++ target_entries t (_overlays w))
      w.
Proof.
  rewrite <- _updateOverlays_control. reflexivity.
Qed.

Lemma removeLayer_absent (l : Layer) c :
  ~ In (L.stamp l) (stamps c) -> L.removeLayer l c = c.
Proof.
  unfold stamps. induction c as [|e c IH]; simpl; intros H; [reflexivity|].
  destruct (Nat.eqb_spec (L.stamp (L.layer e)) (L.stamp l)) as [E|NE].
  - exfalso. apply H. now left.
  - f_equal. apply IH. tauto.
Qed.

Lemma remove_all_absent (ls : list Layer) c :
  (forall l, In l ls -> ~ In (L.stamp l) (stamps c)) -> remove_all ls c = c.
Proof.
  unfold remove_all. induction ls as [|l ls IH]; simpl; intros H;
    [reflexivity|].
  rewrite removeLayer_absent by (apply H; now left).
  apply IH. intros l' Hl'. apply H. now right.
Qed.

Lemma stamps_base_entries_of (b : Obj.t Layer) :
  stamps (base_entries_of b) = List.map (@L.stamp Bounds) (Obj.values b).
Proof.
  unfold stamps, base_entries_of, Obj.values. rewrite !map_map. reflexivity.
Qed.

Lemma find_get {V : Type} k (o : Obj.t V) :
  find (fun kv => String.eqb (fst kv) k) o
  = match Obj.get k o with Some v => Some (k, v) | None => None end.
Proof.
  induction o as [|[k' v'] o IH]; simpl; [reflexivity|].
  rewrite String.eqb_sym.
  destruct (String.eqb_spec k k') as [->|Hne]; [reflexivity | exact IH].
Qed.

Lemma _findMainBaseLayer_get (w : Webmap) :
  _findMainBaseLayer w
  = match Obj.get (Map.mainLevel (map w)) (_baseLayers w) with
    | Some g => Some (g, Map.mainLevel (map w))
    | None => None
    end.
Proof.
  unfold _findMainBaseLayer. rewrite find_get.
  now destruct (Obj.get (Map.mainLevel (map w)) (_baseLayers w)).
Qed.

(** ** The factory reads the description, the configuration and the path
    getter only *)

Lemma _getBaseLayersForMap_ext (w w' : Webmap) :
  same_setup w w' -> _getBaseLayersForMap w = _getBaseLayersForMap w'.
Proof.
  destruct w, w'. unfold same_setup. simpl. intros (-> & -> & ->).
  reflexivity.
Qed.

Lemma _getOverlays_ext (w w' : Webmap) :
  same_setup w w' -> _getOverlays w = _getOverlays w'.
Proof.
  destruct w, w'. unfold same_setup. simpl. intros (-> & -> & ->).
  reflexivity.
Qed.


Lemma baseLayers_built_ext (w w' : Webmap) s0 done b s :
  same_setup w w' ->
  baseLayers_built w s0 done b s -> baseLayers_built w' s0 done b s.
Proof.
  destruct w, w'. unfold same_setup. simpl. intros (-> & -> & ->) H.
  destruct H. constructor; assumption.
Qed.

Lemma overlays_built_ext (w w' : Webmap) s0 done o s :
  same_setup w w' ->
  overlays_built w s0 done o s -> overlays_built w' s0 done o s.
Proof.
  destruct w, w'. unfold same_setup. simpl. intros (-> & -> & ->) H.
  destruct H. constructor; assumption.
Qed.

Lemma overlays_thrown_ext (w w' : Webmap) s0 e s :
  same_setup w w' ->
  overlays_thrown w s0 e s -> overlays_thrown w' s0 e s.
Proof.
  destruct w, w'. unfold same_setup. simpl. intros (-> & -> & ->) H.
  destruct H. constructor; assumption.
Qed.

Lemma base_shape_ext (w w' : Webmap) l :
  same_setup w w' -> base_shape w l -> base_shape w' l.
Proof.
  destruct w, w'. unfold same_setup. simpl. intros (-> & -> & ->) H.
  exact H.
Qed.

Lemma overlay_shape_ext (w w' : Webmap) l :
  same_setup w w' -> overlay_shape w l -> overlay_shape w' l.
Proof.
  destruct w, w'. unfold same_setup. simpl. intros (-> & -> & ->) H.
  exact H.
Qed.

Lemma same_setup_sym (w w' : Webmap) : same_setup w w' -> same_setup w' w.
Proof. unfold same_setup. intros (-> & -> & ->). auto. Qed.

Lemma base_calls_ext (w w' : Webmap) :
  same_setup w w' -> base_calls w = base_calls w'.
Proof.
  destruct w, w'. unfold same_setup. simpl. intros (-> & -> & ->).
  reflexivity.
Qed.

Lemma overlay_calls_ext (w w' : Webmap) :
  same_setup w w' -> overlay_calls w = overlay_calls w'.
Proof.
  destruct w, w'. unfold same_setup. simpl. intros (-> & -> & ->).
  reflexivity.
Qed.

(** ** [initialize] *)

Variables getLayerFolder getLayerImage : FileLayerPathGetter.

Local Abbreviation new := (Webmap_new getLayerFolder getLayerImage).
Local Abbreviation initialized :=
  (initialized getLayerFolder getLayerImage).

Lemma same_setup_trans (w1 w2 w3 : Webmap) :
  same_setup w1 w2 -> same_setup w2 w3 -> same_setup w1 w3.
Proof.
  unfold same_setup. intros (-> & -> & ->) (-> & -> & ->). auto.
Qed.

(** Base layers and overlays carry different stamps: the overlays are
    built after the base layers. *)
Lemma overlays_apart_from_baseLayers (w : Webmap) s s1 s2 done done' bl ov :
  baseLayers_built w s done bl s1 ->
  overlays_built w s1 done' ov s2 ->
  forall l, In l (all_overlays ov) ->
    ~ In (L.stamp l) (List.map (@L.stamp Bounds) (Obj.values bl)).
Proof.
  intros Hb Ho l Hl Hin. apply in_map_iff in Hin.
  destruct Hin as (g & Eg & Hg).
  apply (bb_range Hb) in Hg. apply (ob_range Ho) in Hl. lia.
Qed.

(** The part of [initialize] that follows the construction of the
    layers. *)
Lemma initialize_finish (p : WebmapParameters Bounds) s (w2 : Webmap)
    bl s1 ov s2 :
  same_setup (new p) w2 ->
  _layersControl w2 = [] ->
  _webmap w2 = prepared_view p ->
  baseLayers_built w2 s (Map.levels (map w2)) bl s1 ->
  overlays_built w2 s1 (Map.levels (map w2)) ov s2 ->
  let w5 := with_overlays ov (_addBaseLayersToControl (with_baseLayers bl w2)) in
  let w6 := with_mainBaseLayer (_findMainBaseLayer w5) w5 in
  let w7 :=
    match _mainBaseLayer w6 with
    | Some (layer, layerName) =>
        with_webmap
          (L.map_addLayer layer (webmap (_updateOverlays layerName w6)))
          (_updateOverlays layerName w6)
    | None => w6
    end in
  initialized p s (with_webmap (L.on "baselayerchange" (webmap w7)) w7) s2.
Proof.
  intros Hsetup Hctl Hview Hb Ho w5 w6 w7.
  assert (Hmain : _mainBaseLayer w6
                  = match Obj.get (Map.mainLevel (map w2)) bl with
                    | Some g => Some (g, Map.mainLevel (map w2))
                    | None => None
                    end)
    by apply (_findMainBaseLayer_get w5).
  assert (Hc6 : _layersControl w6 = base_entries_of bl).
  { simpl. rewrite addBaseLayers_fold. simpl.
    change (_layersControl w2 ++ base_entries_of bl = base_entries_of bl).
    now rewrite Hctl. }
  assert (Hs6 : same_setup w2 w6) by (repeat split).
  assert (Hs7 : same_setup w2 w7).
  { subst w7. destruct (_mainBaseLayer w6) as [[g k]|]; repeat split. }
  assert (Hl7 : _baseLayers w7 = bl /\ _overlays w7 = ov
                /\ _mainBaseLayer w7 = _mainBaseLayer w6).
  { subst w7. destruct (_mainBaseLayer w6) as [[g k]|] eqn:E6;
      repeat split; try reflexivity; exact E6. }
  destruct Hl7 as (Hbl7 & Hov7 & Hm7).
  assert (Hc7 : _layersControl w7
                = base_entries_of bl
                  ++ match _mainBaseLayer w6 with
                     | Some (_, layerName) => target_entries layerName ov
                     | None => []
                     end).
  { subst w7. destruct (_mainBaseLayer w6) as [[g k]|] eqn:E6.
    - change (_layersControl (_updateOverlays k w6)
              = base_entries_of bl ++ target_entries k ov).
      rewrite _updateOverlays_control.
      change (_overlays w6) with ov. rewrite Hc6.
      rewrite remove_all_absent; [reflexivity|].
      intros l Hl. rewrite stamps_base_entries_of.
      exact (overlays_apart_from_baseLayers _ _ _ _ _ _ _ _ Hb Ho l Hl).
    - rewrite Hc6. now rewrite app_nil_r. }
  assert (Hv7 : _webmap w7
                = match _mainBaseLayer w6 with
                  | Some (g, _) => L.map_addLayer g (prepared_view p)
                  | None => prepared_view p
                  end).
  { subst w7. destruct (_mainBaseLayer w6) as [[g k]|] eqn:E6.
    - change (L.map_addLayer g (_webmap w2)
              = L.map_addLayer g (prepared_view p)).
      now rewrite Hview.
    - exact Hview. }
  set (wF := with_webmap (L.on "baselayerchange" (webmap w7)) w7).
  assert (HsF : same_setup w2 wF) by exact Hs7.
  assert (HblF : _baseLayers wF = bl) by exact Hbl7.
  assert (HovF : _overlays wF = ov) by exact Hov7.
  assert (HmF : _mainBaseLayer wF = _mainBaseLayer w6) by exact Hm7.
  assert (HcF : _layersControl wF = _layersControl w7) by reflexivity.
  assert (HvF : _webmap wF = L.on "baselayerchange" (_webmap w7))
    by reflexivity.
  clearbody wF w7. clear Hc6.
  pose proof HsF as (Hm' & _).
  assert (Hmap : map wF = map w2) by (unfold map; now rewrite Hm').
  constructor.
  - exact (same_setup_trans _ _ _ Hsetup HsF).
  - exists s1. rewrite HblF, HovF, Hmap. split.
    + exact (baseLayers_built_ext _ _ _ _ _ _ HsF Hb).
    + exact (overlays_built_ext _ _ _ _ _ _ HsF Ho).
  - rewrite HmF, HblF, Hmap. exact Hmain.
  - rewrite HmF, HblF, HovF, HcF. exact Hc7.
  - rewrite HmF, HvF, Hv7. now destruct (_mainBaseLayer w6) as [[g k]|].
Qed.

Lemma initialize_cases (p : WebmapParameters Bounds) s :
  ((configured (new p) = true \/ Map.levels (map (new p)) = [])
   /\ exists w s',
        initialize (new p) s = (Normal w, s') /\ initialized p s w s')
  \/ (Map.levels (map (new p)) <> [] /\ configured (new p) = false
      /\ exists s',
           initialize (new p) s
           = (Throw (TypeError
                "Cannot read properties of undefined (reading 'display')"),
              s')
           /\ exists bl s1,
                baseLayers_built (new p) s (Map.levels (map (new p))) bl s1
                /\ overlays_thrown (new p) s1
                     (TypeError
                        "Cannot read properties of undefined (reading 'display')")
                     s').
Proof.
  unfold initialize. cbv zeta.
  match goal with
  | |- context [_getBaseLayersForMap ?W] => set (w2 := W)
  end.
  destruct (wp_run _ _ _ (_getBaseLayersForMap_built w2 s))
    as (bl & s1 & Hrun1 & Hb).
  assert (Hs2 : same_setup (new p) w2) by (repeat split).
  unfold bind. rewrite Hrun1.
  match goal with
  | |- context [_getOverlays ?W] => set (w4 := W)
  end.
  assert (Hs4 : same_setup (new p) w4) by (repeat split).
  destruct (configured w4) eqn:Hcfg;
    [|destruct (Map.levels (map w4)) as [|lv lvs] eqn:Hlv].
  3: { right. split; [|split].
       - change (Map.levels (map (new p))) with (Map.levels (map w4)).
         rewrite Hlv. discriminate.
       - exact Hcfg.
       - destruct (_getOverlays_throws w4 s1) as (s2 & Hrun2);
           [rewrite Hlv; discriminate | exact Hcfg |].
         pose proof (_getOverlays_wp w4 s1) as Hwp. unfold wp in Hwp.
         rewrite Hrun2 in Hwp. rewrite Hrun2.
         exists s2. split; [reflexivity|]. exists bl, s1. split.
         + exact (baseLayers_built_ext w2 (new p) _ _ _ _
                    (same_setup_sym _ _ Hs2) Hb).
         + exact (overlays_thrown_ext w4 (new p) _ _ _
                    (same_setup_sym _ _ Hs4) Hwp). }
  all: left; split; [first [left; exact Hcfg | right; exact Hlv]|].
  all: assert (Hov : exists ov s2,
         _getOverlays w4 s1 = (Normal ov, s2)
         /\ overlays_built w4 s1 (Map.levels (map w4)) ov s2);
    [ first [ apply wp_run; now apply _getOverlays_built
            | exists Obj.empty, s1; split;
              [ now apply _getOverlays_no_levels
              | rewrite Hlv; apply overlays_built_nil ] ]
    | destruct Hov as (ov & s2 & Hrun2 & Ho); rewrite Hrun2; clear Hrun2 ].
  all: unfold ret; eexists _, s2; split; [reflexivity|].
  all: assert (Hs42 : same_setup w4 w2) by (repeat split).
  all: exact (initialize_finish p s w2 bl s1 ov s2 Hs2 eq_refl eq_refl Hb
                (overlays_built_ext w4 w2 _ _ _ _ Hs42 Ho)).
Qed.

End Factory.

(* ================================================================== *)
(** * The overlay synchroniser *)
(* ================================================================== *)

Section Synchroniser.

Variable Bounds : Type.

Local Abbreviation Layer := (L.Layer Bounds).
Local Abbreviation Control := (L.Control Bounds).
Local Abbreviation Overlays := (Overlays Bounds).
Local Abbreviation ids ov :=
  (List.map (@L.stamp Bounds) (all_overlays ov)).

Implicit Types (ov : Overlays) (c : Control) (t : string).

(** The overlays of one level are among the overlays of all levels. *)
Lemma level_overlays_split t ov (o : Obj.t Layer) :
  Obj.get t ov = Some o ->
  exists A B, all_overlays ov = A ++ Obj.values o ++ B.
Proof.
  intros H. destruct (ObjFacts.get_split t o ov H) as (a & b & -> & _).
  exists (all_overlays a), (all_overlays b).
  unfold all_overlays. rewrite flat_map_app. reflexivity.
Qed.

Lemma target_entries_known t ov e :
  In e (target_entries t ov) ->
  L.overlay e = true /\ In (L.stamp (L.layer e)) (ids ov).
Proof.
  unfold target_entries. destruct (Obj.get t ov) as [o|] eqn:E; [|intros []].
  destruct (level_overlays_split t ov o E) as (A & B & EA).
  unfold overlay_entries_of. intros H. apply in_map_iff in H.
  destruct H as ([d x] & <- & H). simpl. split; [reflexivity|].
  apply in_map. rewrite EA. apply in_or_app. right. apply in_or_app. left.
  unfold Obj.values. change x with (snd (d, x)). now apply in_map.
Qed.

Lemma target_entries_once t ov (l : Layer) :
  NoDup (ids ov) -> times_registered l (target_entries t ov) <= 1.
Proof.
  intros Hnd. unfold times_registered, target_entries.
  destruct (Obj.get t ov) as [o|] eqn:E; [|simpl; lia].
  rewrite stamps_overlay_entries_of.
  destruct (level_overlays_split t ov o E) as (A & B & EA).
  rewrite EA, !map_app in Hnd.
  apply NoDup_app_remove_l, NoDup_app_remove_r in Hnd.
  now apply NoDup_count_occ.
Qed.

(** The control after [sync]: the overlays of the web map are gone, those
    of the target level are back. *)
Lemma sync_control t ov c :
  registered_once ov c ->
  remove_all (all_overlays ov) c ++ target_entries t ov
  = without (ids ov) c ++ target_entries t ov.
Proof.
  intros H. now rewrite remove_all_once.
Qed.

Lemma without_target_entries t ov :
  without (ids ov) (target_entries t ov) = [].
Proof.
  apply without_all. intros e He. now apply target_entries_known in He.
Qed.

Lemma in_without (l : list nat) c e : In e (without l c) -> In e c.
Proof. unfold without. intros H. now apply filter_In in H. Qed.

(** The three properties of a control that [sync] keeps. *)
Lemma sync_registered_once t ov c :
  NoDup (ids ov) ->
  registered_once ov (without (ids ov) c ++ target_entries t ov).
Proof.
  intros Hnd l Hl. rewrite times_registered_app.
  rewrite times_registered_without_in by (now apply in_map).
  simpl. now apply target_entries_once.
Qed.

Lemma sync_overlays_known t ov c :
  overlays_known ov c ->
  overlays_known ov (without (ids ov) c ++ target_entries t ov).
Proof.
  intros H e He Ho. apply in_app_or in He. destruct He as [He|He].
  - apply in_without in He. auto.
  - now apply target_entries_known in He.
Qed.

Lemma sync_base_entries_apart t ov c :
  base_entries_apart ov c ->
  base_entries_apart ov (without (ids ov) c ++ target_entries t ov).
Proof.
  intros H e He Ho. apply in_app_or in He. destruct He as [He|He].
  - apply in_without in He. auto.
  - apply target_entries_known in He. destruct He as [He _]. congruence.
Qed.

(** After [sync] the overlay entries are those of the target level. *)
Lemma sync_overlay_entries t ov c :
  overlays_known ov c ->
  L.overlay_entries (without (ids ov) c ++ target_entries t ov)
  = target_entries t ov.
Proof.
  intros H. rewrite overlay_entries_app, overlay_entries_target_entries.
  rewrite overlay_entries_without; [reflexivity|]. exact H.
Qed.

(** A second [sync] changes nothing. *)
Lemma sync_twice t ov c :
  without (ids ov) (without (ids ov) c ++ target_entries t ov)
  = without (ids ov) c.
Proof.
  rewrite without_app, without_target_entries, app_nil_r.
  rewrite without_without. unfold without. apply filter_ext.
  intros e. now rewrite existsb_app, orb_diag.
Qed.

(** The base-layer entries stay. *)
Lemma sync_base_entries t ov c :
  base_entries_apart ov c ->
  L.base_entries (remove_all (all_overlays ov) c ++ target_entries t ov)
  = L.base_entries c.
Proof.
  intros H. rewrite base_entries_app, base_entries_target_entries, app_nil_r.
  apply base_entries_remove_all. exact H.
Qed.

End Synchroniser.

(* ================================================================== *)
(** * The composition engine *)
(* ================================================================== *)

Section Engine.

Variable Bounds : Type.
Variables getLayerFolder getLayerImage : FileLayerPathGetter.

Local Abbreviation Layer := (L.Layer Bounds).
Local Abbreviation World := (World Bounds).
Local Abbreviation Webmap := (Webmap Bounds).
Local Abbreviation new := (Webmap_new getLayerFolder getLayerImage).
Local Abbreviation initialized :=
  (initialized getLayerFolder getLayerImage).
Local Abbreviation reachable := (reachable getLayerFolder getLayerImage).
Local Abbreviation ids ov :=
  (List.map (@L.stamp Bounds) (all_overlays ov)).

Lemma initialize_initialized (p : WebmapParameters Bounds) s w s' :
  initialize (new p) s = (Normal w, s') -> initialized p s w s'.
Proof.
  intros H.
  destruct (initialize_cases Bounds getLayerFolder getLayerImage p s)
    as [(_ & w1 & s1 & Hrun & Hi)|(_ & _ & s1 & Hrun & _)];
    rewrite Hrun in H; [|discriminate].
  now injection H as <- <-.
Qed.



Lemma plain_namesb_spec (w : Webmap) :
  plain_namesb w = true -> plain_names w.
Proof.
  unfold plain_namesb, plain_names, plain_levels, plain_labels.
  intros H. apply andb_prop in H. destruct H as [H1 H2].
  apply negb_true_iff in H1, H2.
  split; intros Hin.
  - assert (Ht : existsb (String.eqb "__proto__")
                   (Obj.keys (Map.levels (map w))) = true).
    { apply existsb_exists. exists "__proto__".
      split; [exact Hin | apply String.eqb_refl]. }
    congruence.
  - assert (Ht : existsb (String.eqb "__proto__") (overlay_labels w) = true).
    { apply existsb_exists. exists "__proto__".
      split; [exact Hin | apply String.eqb_refl]. }
    congruence.
Qed.





(** After [initialize] the control is in order: no overlay is registered
    twice, every overlay entry is an overlay of the web map, and the
    base-layer entries carry base layers. *)
Lemma initialized_nodup (p : WebmapParameters Bounds) s w s' :
  initialized p s w s' -> NoDup (ids (_overlays w)).
Proof.
  intros [_ (s1 & _ & Ho) _ _ _]. exact (ob_nodup Ho).
Qed.

Lemma initialized_apart (p : WebmapParameters Bounds) s w s' :
  initialized p s w s' ->
  forall g, In g (Obj.values (_baseLayers w)) ->
    ~ In (L.stamp g) (ids (_overlays w)).
Proof.
  intros [_ (s1 & Hb & Ho) _ _ _] g Hg Hin.
  apply in_map_iff in Hin. destruct Hin as (x & Ex & Hx).
  apply (bb_range Hb) in Hg. apply (ob_range Ho) in Hx. lia.
Qed.

Lemma initialized_consistent (p : WebmapParameters Bounds) s w s' :
  initialized p s w s' ->
  registered_once (_overlays w) (_layersControl w)
  /\ overlays_known (_overlays w) (_layersControl w)
  /\ base_entries_apart (_overlays w) (_layersControl w).
Proof.
  intros Hi.
  pose proof (initialized_nodup p s w s' Hi) as Hnd.
  pose proof (initialized_apart p s w s' Hi) as Hap.
  destruct Hi as [_ _ _ Hctl _]. rewrite Hctl.
  set (T := match _mainBaseLayer w with
            | Some (_, layerName) => target_entries layerName (_overlays w)
            | None => []
            end).
  assert (HT : forall e, In e T ->
                 L.overlay e = true
                 /\ In (L.stamp (L.layer e)) (ids (_overlays w))).
  { subst T. destruct (_mainBaseLayer w) as [[g k]|]; [|intros e []].
    intros e. apply target_entries_known. }
  assert (HT1 : forall l, times_registered l T <= 1).
  { subst T. intros l. destruct (_mainBaseLayer w) as [[g k]|].
    - now apply target_entries_once.
    - unfold times_registered. simpl. lia. }
  assert (HB : forall e, In e (base_entries_of (_baseLayers w)) ->
                 L.overlay e = false
                 /\ In (L.layer e) (Obj.values (_baseLayers w))).
  { intros e He. unfold base_entries_of in He. apply in_map_iff in He.
    destruct He as ([k g] & <- & He). simpl. split; [reflexivity|].
    unfold Obj.values. change g with (snd (k, g)). now apply in_map. }
  split; [|split].
  - intros l Hl. rewrite times_registered_app.
    assert (H0 : times_registered l (base_entries_of (_baseLayers w)) = 0).
    { unfold times_registered. apply count_occ_not_In.
      rewrite stamps_base_entries_of. intros Hin.
      apply in_map_iff in Hin. destruct Hin as (g & Eg & Hg).
      apply (Hap g Hg). rewrite Eg. now apply in_map. }
    rewrite H0. apply HT1.
  - intros e He Ho. apply in_app_or in He. destruct He as [He|He].
    + apply HB in He. destruct He; congruence.
    + now apply HT.
  - intros e He Ho. apply in_app_or in He. destruct He as [He|He].
    + apply HB in He. destruct He as [_ He]. now apply Hap.
    + apply HT in He. destruct He; congruence.
Qed.

(** Every state of the web map is in order. *)
Lemma reachable_consistent (p : WebmapParameters Bounds) s w :
  reachable p s w ->
  NoDup (ids (_overlays w))
  /\ registered_once (_overlays w) (_layersControl w)
  /\ overlays_known (_overlays w) (_layersControl w)
  /\ base_entries_apart (_overlays w) (_layersControl w).
Proof.
  induction 1 as [w s' Hrun | w name Hr IH].
  - apply initialize_initialized in Hrun. split.
    + eapply initialized_nodup; eauto.
    + eapply initialized_consistent; eauto.
  - unfold baselayerchange. unfold webmap.
    generalize (L.listeners (_webmap w)). intros types.
    clear Hr. revert w IH.
    induction types as [|type types IHt]; intros w IH; simpl; [exact IH|].
    destruct (String.eqb type "baselayerchange"); [|now apply IHt].
    apply IHt.
    destruct IH as (Hnd & H1 & H2 & H3).
    rewrite _updateOverlays_control.
    change (_overlays (_updateOverlays name w)) with (_overlays w).
    rewrite sync_control by exact H1.
    split; [exact Hnd|]. split; [|split].
    + now apply sync_registered_once.
    + now apply sync_overlays_known.
    + now apply sync_base_entries_apart.
Qed.

(* ================================================================== *)
(** * The properties of the specification *)
(* ================================================================== *)

(** X17.  For level names and display labels that are ordinary names: in
    a web map that has been initialised, starting from a control in which
    no overlay of the web map is registered twice and every overlay entry
    is an overlay of the web map, [sync L1] leaves the control without
    any entry of any overlay of any level, followed by the entries of
    [Overlays[L1]]; and after [sync L1] then [sync L2] the overlay
    entries of the control are exactly the overlays of [Overlays[L2]]
    under their display labels, with nothing left of [L1]. *)
Theorem sync_then_sync (p : WebmapParameters Bounds) s w s' c L1 L2 :
  plain_names (new p) ->
  initialize (new p) s = (Normal w, s') ->
  registered_once (_overlays w) c ->
  overlays_known (_overlays w) c ->
  _layersControl (_updateOverlays L1 (with_layersControl c w))
  = without (ids (_overlays w)) c ++ target_entries L1 (_overlays w)
  /\ L.overlay_entries
       (_layersControl
          (_updateOverlays L2 (_updateOverlays L1 (with_layersControl c w))))
     = target_entries L2 (_overlays w).
Proof.
  intros _ Hrun H1 H2.
  pose proof (initialized_nodup p s w s' (initialize_initialized p s w s' Hrun))
    as Hnd.
  rewrite !_updateOverlays_control.
  change (_overlays (_updateOverlays L1 (with_layersControl c w)))
    with (_overlays w).
  change (_overlays (with_layersControl c w)) with (_overlays w).
  change (_layersControl (with_layersControl c w)) with c.
  rewrite (sync_control Bounds L1 (_overlays w) c H1).
  split; [reflexivity|].
  rewrite sync_control by (now apply sync_registered_once).
  apply sync_overlay_entries. now apply sync_overlays_known.
Qed.

(** C4, as amended.  In a web map that has been initialised, starting
    from a control in which no overlay of the web map is registered twice,
    [sync L] twice in a row leaves the web map as [sync L] once does. *)
Theorem sync_idempotent (p : WebmapParameters Bounds) s w s' c L1 :
  initialize (new p) s = (Normal w, s') ->
  registered_once (_overlays w) c ->
  _updateOverlays L1 (_updateOverlays L1 (with_layersControl c w))
  = _updateOverlays L1 (with_layersControl c w).
Proof.
  intros Hrun H1.
  pose proof (initialized_nodup p s w s' (initialize_initialized p s w s' Hrun))
    as Hnd.
  rewrite (_updateOverlays_eq Bounds L1 (_updateOverlays L1 _)).
  rewrite !_updateOverlays_control.
  rewrite (_updateOverlays_eq Bounds L1 (with_layersControl c w)).
  change (_overlays (with_layersControl _ w)) with (_overlays w).
  change (_layersControl (with_layersControl c w)) with c.
  rewrite (sync_control Bounds L1 (_overlays w) c H1).
  rewrite sync_control by (now apply sync_registered_once).
  rewrite sync_twice. reflexivity.
Qed.

(** X19.  For level names and display labels that are ordinary names:
    for a level name without an entry in [Overlays], [sync] removes one
    registration of every overlay of every level from the control and
    adds nothing; from a control in which no overlay of the web map is
    registered twice and every overlay entry is an overlay of the web
    map, no overlay entry is left. *)
Theorem sync_absent_level (p : WebmapParameters Bounds) s w s' c L1 :
  plain_names (new p) ->
  initialize (new p) s = (Normal w, s') ->
  Obj.get L1 (_overlays w) = None ->
  _layersControl (_updateOverlays L1 (with_layersControl c w))
  = remove_all (all_overlays (_overlays w)) c
  /\ (registered_once (_overlays w) c -> overlays_known (_overlays w) c ->
      L.overlay_entries
        (_layersControl (_updateOverlays L1 (with_layersControl c w)))
      = []).
Proof.
  intros _ Hrun Hget.
  rewrite _updateOverlays_control.
  change (_overlays (with_layersControl c w)) with (_overlays w).
  change (_layersControl (with_layersControl c w)) with c.
  unfold target_entries. rewrite Hget, app_nil_r.
  split; [reflexivity|].
  intros H1 H2. rewrite remove_all_once by exact H1.
  now apply overlay_entries_without.
Qed.

(** C9.  [sync] leaves the base-layer entries of the control as they
    are: whatever the level name and whatever the overlay entries, when
    the base-layer entries are those that [initialize] registered, one per
    level, they are the same entries after the call. *)
Theorem sync_keeps_base_entries (p : WebmapParameters Bounds) s w s' c L1 :
  initialize (new p) s = (Normal w, s') ->
  L.base_entries c = base_entries_of (_baseLayers w) ->
  L.base_entries
    (_layersControl (_updateOverlays L1 (with_layersControl c w)))
  = L.base_entries c.
Proof.
  intros Hrun Hbase.
  pose proof (initialized_apart p s w s' (initialize_initialized p s w s' Hrun))
    as Hap.
  rewrite _updateOverlays_control.
  change (_overlays (with_layersControl c w)) with (_overlays w).
  change (_layersControl (with_layersControl c w)) with c.
  apply sync_base_entries.
  intros e He Ho.
  assert (Hin : In e (L.base_entries c)).
  { unfold L.base_entries. apply filter_In. split; [exact He|].
    now rewrite Ho. }
  rewrite Hbase in Hin. unfold base_entries_of in Hin.
  apply in_map_iff in Hin. destruct Hin as ([k g] & <- & Hin). simpl.
  apply Hap. unfold Obj.values. change g with (snd (k, g)). now apply in_map.
Qed.


(** X18.  For a map description none of whose levels is named
    ["__proto__"]: once [initialize] has built the layer maps,
    [BaseLayers], [Overlays] and the [levels] of the map description have
    the same keys: a name is a key of one exactly when it is a key of
    the others, no key occurs twice, and every level name has its base
    layer and its (possibly empty) object of overlays. *)
Theorem same_keys (p : WebmapParameters Bounds) s w s' :
  plain_levels (new p) ->
  initialize (new p) s = (Normal w, s') ->
  (forall k, In k (Obj.keys (_baseLayers w))
             <-> In k (Obj.keys (Map.levels (map w))))
  /\ (forall k, In k (Obj.keys (_overlays w))
                <-> In k (Obj.keys (Map.levels (map w))))
  /\ NoDup (Obj.keys (_baseLayers w))
  /\ NoDup (Obj.keys (_overlays w))
  /\ (forall k, In k (Obj.keys (Map.levels (map w))) ->
        exists g o, Obj.get k (_baseLayers w) = Some g
                    /\ Obj.get k (_overlays w) = Some o).
Proof.
  intros _ Hrun.
  destruct (initialize_initialized p s w s' Hrun)
    as [_ (s1 & Hb & Ho) _ _ _].
  split; [exact (bb_keys Hb)|]. split; [exact (ob_keys Ho)|].
  split; [exact (bb_wf Hb)|]. split; [exact (ob_wf Ho)|].
  intros k Hk.
  pose proof (proj2 (bb_keys Hb k) Hk) as H1.
  pose proof (proj2 (ob_keys Ho k) Hk) as H2.
  apply ObjFacts.has_true_iff in H1, H2. unfold Obj.has in H1, H2.
  destruct (Obj.get k (_baseLayers w)) as [g|]; [|discriminate].
  destruct (Obj.get k (_overlays w)) as [o|]; [|discriminate].
  now exists g, o.
Qed.





(** C6.  Every visual that [initialize] constructs, whether it completes
    or throws, is of the kind the layer settings select.  The visuals
    constructed are those of the base layers (underlays and primary
    visuals), then those of the overlays.  With [Tiles] settings they are
    all tile layers bound to the bounds of the map, with [maxZoom] and
    [maxNativeZoom] 4: of the configured tile size in the base layers, of
    tile size 1024 in the overlays.  With other or no settings they are
    all image overlays on the bounds of the map.  When [initialize]
    completes, the members of the base layers are among the former and
    the overlays among the latter. *)
Theorem strategy_selection (p : WebmapParameters Bounds) s r s' :
  initialize (new p) s = (r, s') ->
  exists vb vo,
    visuals s' = visuals s ++ vb ++ vo
    /\ match Config.layerSettings (param_config p) with
       | Some (Config.Tiles tileSize) =>
           Forall (tile_with (Map.bounds (fst (param_map p))) tileSize) vb
           /\ Forall (tile_with (Map.bounds (fst (param_map p))) 1024) vo
       | _ =>
           Forall (image_with (Map.bounds (fst (param_map p)))) vb
           /\ Forall (image_with (Map.bounds (fst (param_map p)))) vo
       end
    /\ match r with
       | Normal w =>
           (forall g, In g (Obj.values (_baseLayers w)) ->
              incl (L.members_of g) vb)
           /\ incl (all_overlays (_overlays w)) vo
       | Throw _ => True
       end.
Proof.
  intros Hrun.
  assert (Hshape : forall vb vo,
            Forall (base_shape (new p)) vb ->
            Forall (overlay_shape (new p)) vo ->
            match Config.layerSettings (param_config p) with
            | Some (Config.Tiles tileSize) =>
                Forall (tile_with (Map.bounds (fst (param_map p))) tileSize) vb
                /\ Forall (tile_with (Map.bounds (fst (param_map p))) 1024) vo
            | _ =>
                Forall (image_with (Map.bounds (fst (param_map p)))) vb
                /\ Forall (image_with (Map.bounds (fst (param_map p)))) vo
            end).
  { unfold base_shape, overlay_shape, tiles_of. simpl.
    destruct (Config.layerSettings (param_config p)) as [[tileSize|]|]; auto. }
  destruct (initialize_cases Bounds getLayerFolder getLayerImage p s)
    as [(_ & w & s1 & Hrun' & Hi)|(_ & _ & s1 & Hrun' & bl & s0 & Hb & Ht)];
    rewrite Hrun' in Hrun; injection Hrun as <- <-.
  - destruct Hi as [Hsetup (s0 & Hb & Ho) _ _ _].
    apply same_setup_sym in Hsetup.
    destruct (bb_visuals Hb) as (vb & Evb & Hvb & Hmem).
    destruct (ob_visuals Ho) as (vo & Evo & Hvo & Hin).
    exists vb, vo. split; [|split; [|split; assumption]].
    + rewrite Evo, Evb. now rewrite <- app_assoc.
    + apply Hshape.
      * eapply Forall_impl; [|exact Hvb].
        intros l. now apply base_shape_ext.
      * eapply Forall_impl; [|exact Hvo].
        intros l. now apply overlay_shape_ext.
  - destruct (bb_visuals Hb) as (vb & Evb & Hvb & _).
    destruct (ot_visuals Ht) as (vo & Evo & Hvo).
    exists vb, vo. split; [|split; [|exact I]].
    + rewrite Evo, Evb. now rewrite <- app_assoc.
    + now apply Hshape.
Qed.

(** C7.  During [initialize] the path getter is called with these
    arguments, in this order: for each level, [(mapName, underlayName,
    layers[0])] for each of its underlays and then [(mapName, levelName,
    layers[0])]; after that, for each level, [(mapName, levelName,
    overlayName)] for each overlay name of [layers.slice(1)].  When
    [initialize] throws, the calls for the overlays stop with the overlay
    name that is not configured. *)
Theorem path_getter_calls (p : WebmapParameters Bounds) s r s' :
  initialize (new p) s = (r, s') ->
  match r with
  | Normal _ =>
      path_calls s'
      = path_calls s ++ base_calls (new p) ++ overlay_calls (new p)
  | Throw _ =>
      exists calls rest,
        path_calls s' = path_calls s ++ base_calls (new p) ++ calls
        /\ overlay_calls (new p) = calls ++ rest
  end.
Proof.
  intros Hrun.
  destruct (initialize_cases Bounds getLayerFolder getLayerImage p s)
    as [(_ & w & s1 & Hrun' & Hi)|(_ & _ & s1 & Hrun' & bl & s0 & Hb & Ht)];
    rewrite Hrun' in Hrun; injection Hrun as <- <-.
  - destruct Hi as [Hsetup (s0 & Hb & Ho) _ _ _].
    rewrite (ob_calls Ho), (bb_calls Hb).
    rewrite (base_calls_ext Bounds _ _ Hsetup).
    rewrite (overlay_calls_ext Bounds _ _ Hsetup).
    now rewrite <- app_assoc.
  - destruct (ot_calls Ht) as (calls & rest & Ec & Er).
    exists calls, rest. split; [|exact Er].
    rewrite Ec, (bb_calls Hb). now rewrite <- app_assoc.
Qed.


End Engine.

(* ================================================================== *)
(** * What the factory does to the world *)
(* ================================================================== *)

Section Built.

Variable Bounds : Type.

Local Abbreviation Layer := (L.Layer Bounds).
Local Abbreviation World := (World Bounds).
Local Abbreviation Webmap := (Webmap Bounds).
Local Abbreviation M := (M Bounds).

Local Notation "x <- m ;; k" := (bind m (fun x => k))
  (at level 61, m at next level, right associativity).

Lemma built_since_refl (w : Webmap) s : built_since w s s.
Proof.
  exists [], []. rewrite !app_nil_r.
  split; [reflexivity|]. split; [reflexivity|].
  split; [constructor|]. split; [lia|].
  split; [intros v [] | constructor].
Qed.

Lemma built_since_trans (w : Webmap) s0 s1 s2 :
  built_since w s0 s1 -> built_since w s1 s2 -> built_since w s0 s2.
Proof.
  intros (cs1 & vs1 & Hc1 & Hv1 & Hl1 & Hn1 & Hr1 & Hd1)
         (cs2 & vs2 & Hc2 & Hv2 & Hl2 & Hn2 & Hr2 & Hd2).
  exists (cs1 ++ cs2), (vs1 ++ vs2).
  split; [rewrite Hc2, Hc1; now rewrite app_assoc|].
  split; [rewrite Hv2, Hv1; now rewrite app_assoc|].
  split; [now apply Forall2_app|].
  split; [lia|]. split.
  - intros v Hv. apply in_app_or in Hv. destruct Hv as [Hv|Hv].
    + apply Hr1 in Hv. lia.
    + apply Hr2 in Hv. lia.
  - rewrite map_app. apply NoDup_app; [exact Hd1 | exact Hd2 |].
    intros id H1 H2. apply in_map_iff in H1, H2.
    destruct H1 as (v1 & E1 & H1). destruct H2 as (v2 & E2 & H2).
    apply Hr1 in H1. apply Hr2 in H2. lia.
Qed.

Lemma built_since_ext (w w' : Webmap) s0 s :
  same_setup w w' -> built_since w s0 s -> built_since w' s0 s.
Proof.
  destruct w, w'. unfold same_setup. simpl. intros (-> & -> & ->) H.
  exact H.
Qed.

Lemma builds_only_ret {A : Type} (w : Webmap) (a : A) :
  builds_only w (ret a : M A).
Proof. intros s. apply built_since_refl. Qed.

Lemma builds_only_throw {A : Type} (w : Webmap) e :
  builds_only w (throw e : M A).
Proof. intros s. apply built_since_refl. Qed.

Lemma builds_only_bind {A B : Type} (w : Webmap) (m : M A) (f : A -> M B) :
  builds_only w m -> (forall a, builds_only w (f a)) ->
  builds_only w (bind m f).
Proof.
  intros Hm Hf s. unfold bind. specialize (Hm s).
  destruct (m s) as [[a|e] s1]; simpl in Hm.
  - eapply built_since_trans; [exact Hm | apply Hf].
  - exact Hm.
Qed.

Lemma builds_only_for_each {A S : Type} (w : Webmap) (l : list A)
    (body : S -> A -> M S) :
  (forall acc x, In x l -> builds_only w (body acc x)) ->
  forall acc, builds_only w (for_each l body acc).
Proof.
  induction l as [|x l IH]; intros H acc; simpl.
  - apply builds_only_ret.
  - apply builds_only_bind.
    + apply H. now left.
    + intros acc'. apply IH. intros a y Hy. apply H. now right.
Qed.

Lemma builds_only_ext {A : Type} (w w' : Webmap) (m : M A) :
  same_setup w w' -> builds_only w m -> builds_only w' m.
Proof.
  intros Hs H s. eapply built_since_ext; [exact Hs | apply H].
Qed.

(** One visual built from one call. *)
Lemma built_since_allocated (w : Webmap) (l : Layer) c s :
  L.stamp l = next_id s -> url_of l = call_url w c ->
  built_since w s (allocated l c s).
Proof.
  intros Hid Hurl. exists [c], [l]. simpl.
  split; [reflexivity|]. split; [reflexivity|].
  split; [now constructor|]. split; [lia|]. split.
  - intros v [<-|[]]. lia.
  - constructor; [intros [] | constructor].
Qed.

Lemma builds_only_make_underlay (w : Webmap) u :
  builds_only w (make_underlay w u).
Proof.
  intros s. rewrite make_underlay_eq. simpl.
  apply built_since_allocated; [apply stamp_underlay_of|].
  unfold underlay_of, call_url, path_of. now destruct (tiles_of (_config w)).
Qed.

Lemma builds_only_make_baseLayer (w : Webmap) k :
  builds_only w (make_baseLayer w k).
Proof.
  intros s. rewrite make_baseLayer_eq. simpl.
  apply built_since_allocated; [apply stamp_baseLayer_of|].
  unfold baseLayer_of, call_url, path_of. now destruct (tiles_of (_config w)).
Qed.

Lemma builds_only_make_overlay (w : Webmap) k n :
  builds_only w (make_overlay w k n).
Proof.
  intros s. rewrite make_overlay_eq. simpl.
  apply built_since_allocated; [apply stamp_overlay_of|].
  unfold overlay_of, call_url, path_of. now destruct (tiles_of (_config w)).
Qed.

(** A group takes a stamp and builds no visual. *)
Lemma builds_only_layerGroup (w : Webmap) ls :
  builds_only w (layerGroup ls).
Proof.
  intros s. exists [], []. simpl. rewrite !app_nil_r.
  split; [reflexivity|]. split; [reflexivity|].
  split; [constructor|]. split; [lia|].
  split; [intros v [] | constructor].
Qed.

Lemma builds_only__getBaseLayersForMap (w : Webmap) :
  builds_only w (_getBaseLayersForMap w).
Proof.
  unfold _getBaseLayersForMap. apply builds_only_for_each.
  intros bl [k level] _. unfold baseLayers_step.
  apply builds_only_bind.
  - destruct (Level.underlays level) as [names|].
    + apply builds_only_for_each. intros us u _.
      apply builds_only_bind; [apply builds_only_make_underlay|].
      intros l. apply builds_only_ret.
    + apply builds_only_ret.
  - intros us. apply builds_only_bind; [apply builds_only_make_baseLayer|].
    intros b. apply builds_only_bind; [apply builds_only_layerGroup|].
    intros g. apply builds_only_ret.
Qed.

Lemma builds_only__getOverlays (w : Webmap) :
  builds_only w (_getOverlays w).
Proof.
  unfold _getOverlays. apply builds_only_for_each.
  intros ov [k level] _. simpl. apply builds_only_for_each.
  intros ov' n _. unfold overlays_step.
  apply builds_only_bind; [apply builds_only_make_overlay|].
  intros x. destruct (Obj.get n (Config.layers (config w))).
  - destruct (Obj.get k ov'); [apply builds_only_ret | apply builds_only_throw].
  - apply builds_only_throw.
Qed.

Lemma builds_only_initialize (w : Webmap) : builds_only w (initialize w).
Proof.
  unfold initialize. cbv zeta.
  apply builds_only_bind.
  - eapply builds_only_ext; [|apply builds_only__getBaseLayersForMap].
    repeat split.
  - intros bl. apply builds_only_bind.
    + eapply builds_only_ext; [|apply builds_only__getOverlays].
      repeat split.
    + intros ov. apply builds_only_ret.
Qed.

End Built.

(* ================================================================== *)
(** * The layer maps, entry by entry *)
(* ================================================================== *)

Section Exact.

Variable Bounds : Type.

Local Abbreviation Layer := (L.Layer Bounds).
Local Abbreviation World := (World Bounds).
Local Abbreviation Webmap := (Webmap Bounds).
Local Abbreviation M := (M Bounds).

Local Notation "x <- m ;; k" := (bind m (fun x => k))
  (at level 61, m at next level, right associativity).

(** [initialize] in terms of what the two factory functions return: it
    keeps their maps, appends the base-layer entries to the control, runs
    [sync] for the main level when there is one and adds its base layer
    to the view; it throws what [_getOverlays] throws. *)
Lemma initialize_run_layers (w0 : Webmap) s r s' :
  initialize w0 s = (r, s') ->
  exists bl s1,
    _getBaseLayersForMap w0 s = (Normal bl, s1)
    /\ match r with
       | Normal w =>
           exists ov,
             _getOverlays w0 s1 = (Normal ov, s')
             /\ _baseLayers w = bl /\ _overlays w = ov
             /\ same_setup w0 w
             /\ _mainBaseLayer w
                = match Obj.get (Map.mainLevel (map w0)) bl with
                  | Some g => Some (g, Map.mainLevel (map w0))
                  | None => None
                  end
             /\ _layersControl w
                = match Obj.get (Map.mainLevel (map w0)) bl with
                  | Some _ =>
                      remove_all (all_overlays ov)
                        (_layersControl w0 ++ base_entries_of bl)
                      ++ target_entries (Map.mainLevel (map w0)) ov
                  | None => _layersControl w0 ++ base_entries_of bl
                  end
             /\ _webmap w
                = L.on "baselayerchange"
                    match Obj.get (Map.mainLevel (map w0)) bl with
                    | Some g =>
                        L.map_addLayer g
                          (L.fitBounds (Map.bounds (map w0))
                             (L.setMaxBounds (Map.bounds (map w0))
                                (_webmap w0)))
                    | None =>
                        L.fitBounds (Map.bounds (map w0))
                          (L.setMaxBounds (Map.bounds (map w0)) (_webmap w0))
                    end
       | Throw e => _getOverlays w0 s1 = (Throw e, s')
       end.
Proof.
  intros H. unfold initialize in H. cbv zeta in H.
  match type of H with
  | context [_getBaseLayersForMap ?W] =>
      rewrite (_getBaseLayersForMap_ext Bounds W w0) in H by (repeat split)
  end.
  destruct (wp_run _ _ _ _ (_getBaseLayersForMap_built Bounds w0 s))
    as (bl & s1 & Hrun1 & _).
  unfold bind in H. rewrite Hrun1 in H.
  match type of H with
  | context [_getOverlays ?W] =>
      rewrite (_getOverlays_ext Bounds W w0) in H by (repeat split)
  end.
  exists bl, s1. split; [exact Hrun1|].
  destruct (_getOverlays w0 s1) as [[ov|e] s2].
  - unfold ret in H. injection H as <- <-. exists ov.
    split; [reflexivity|].
    match goal with
    | |- context [_findMainBaseLayer ?W] => set (w5 := W)
    end.
    assert (Hmain : _findMainBaseLayer w5
                    = match Obj.get (Map.mainLevel (map w0)) bl with
                      | Some g => Some (g, Map.mainLevel (map w0))
                      | None => None
                      end)
      by apply (_findMainBaseLayer_get Bounds w5).
    assert (Hc5 : _layersControl w5 = _layersControl w0 ++ base_entries_of bl).
    { subst w5. simpl. apply addBaseLayers_fold. }
    cbn [_mainBaseLayer with_mainBaseLayer].
    rewrite Hmain.
    destruct (Obj.get (Map.mainLevel (map w0)) bl) as [g|].
    + split; [reflexivity|]. split; [reflexivity|].
      split; [repeat split|]. split; [reflexivity|]. split; [|reflexivity].
      cbn [_layersControl with_webmap].
      rewrite _updateOverlays_control.
      cbn [_layersControl with_mainBaseLayer _overlays].
      rewrite Hc5. reflexivity.
    + split; [reflexivity|]. split; [reflexivity|].
      split; [repeat split|]. split; [reflexivity|]. split; [|reflexivity].
      cbn [_layersControl with_webmap with_mainBaseLayer]. exact Hc5.
  - injection H as <- <-. reflexivity.
Qed.

(** ** The base layers *)

Lemma underlays_loop_exact (w : Webmap) names : forall acc s,
  exists us s',
    for_each names
      (fun underlays underlayName =>
         underlay <- make_underlay w underlayName ;;
         ret (underlays ++ [underlay]))
      acc s
    = (Normal (acc ++ us), s')
    /\ Forall2 (fun u l => l = underlay_of w u (L.stamp l)) names us.
Proof.
  induction names as [|u names IH]; intros acc s.
  - exists [], s. simpl. rewrite app_nil_r. split; [reflexivity | constructor].
  - simpl. unfold bind at 1. unfold bind at 1. rewrite make_underlay_eq.
    unfold ret at 1.
    destruct (IH (acc ++ [underlay_of w u (next_id s)])
                (allocated (underlay_of w u (next_id s))
                   (mapName w, u, hd_error (Map.layers (map w))) s))
      as (us & s' & Hrun & HF).
    exists (underlay_of w u (next_id s) :: us), s'.
    rewrite Hrun, <- app_assoc. split; [reflexivity|].
    constructor; [|exact HF]. now rewrite stamp_underlay_of.
Qed.

Lemma baseLayers_step_exact (w : Webmap) bl k level s :
  exists g s',
    baseLayers_step w bl (k, level) s = (Normal (Obj.set k g bl), s')
    /\ base_group_of w k level g.
Proof.
  destruct (underlays_loop_exact w (underlay_names level) [] s)
    as (us & s1 & Hrun & HF).
  assert (Hloop :
    match Level.underlays level with
    | Some names =>
        for_each names
          (fun underlays underlayName =>
             underlay <- make_underlay w underlayName ;;
             ret (underlays ++ [underlay]))
          []
    | None => ret []
    end s = (Normal us, s1)).
  { unfold underlay_names in Hrun. destruct (Level.underlays level);
      exact Hrun. }
  eexists. eexists. split.
  - unfold baseLayers_step. unfold bind at 1. rewrite Hloop.
    unfold bind at 1. rewrite make_baseLayer_eq.
    unfold bind at 1. unfold layerGroup, bind at 1, fresh, ret. simpl.
    reflexivity.
  - exists us, (baseLayer_of w k (next_id s1)). simpl.
    split; [reflexivity|]. split; [exact HF|].
    now rewrite stamp_baseLayer_of.
Qed.

Lemma _getBaseLayersForMap_exact (w : Webmap) s :
  wp (_getBaseLayersForMap w)
    (fun bl _ =>
       forall k g, Obj.get k bl = Some g ->
         exists level,
           In (k, level) (Map.levels (map w)) /\ base_group_of w k level g)
    (@no_throw Bounds) s.
Proof.
  unfold _getBaseLayersForMap.
  apply (wp_for_each Bounds (Map.levels (map w)) (baseLayers_step w)
           (@no_throw Bounds)
           (fun done bl _ =>
              forall k g, Obj.get k bl = Some g ->
                exists level, In (k, level) done /\ base_group_of w k level g)).
  - intros done [k level] post bl s1 _ HI.
    destruct (baseLayers_step_exact w bl k level s1) as (g & s2 & Hrun & Hg).
    eapply wp_of_run; [exact Hrun|].
    intros k' g' Hget. destruct (string_dec k' k) as [->|Hne].
    + rewrite ObjFacts.get_set_eq in Hget. injection Hget as <-.
      exists level. split; [apply in_or_app; right; now left | exact Hg].
    + rewrite ObjFacts.get_set_neq in Hget by exact Hne.
      destruct (HI k' g' Hget) as (level' & Hin & Hok).
      exists level'. split; [apply in_or_app; now left | exact Hok].
  - intros k g Hget. discriminate.
Qed.

(** ** The overlays *)




End Exact.
(* ================================================================== *)
(** * Further properties of the class *)
(* ================================================================== *)

Section Further.

Variable Bounds : Type.
Variables getLayerFolder getLayerImage : FileLayerPathGetter.

Local Abbreviation Layer := (L.Layer Bounds).
Local Abbreviation World := (World Bounds).
Local Abbreviation Webmap := (Webmap Bounds).
Local Abbreviation new := (Webmap_new getLayerFolder getLayerImage).
Local Abbreviation initialized :=
  (initialized getLayerFolder getLayerImage).
Local Abbreviation reachable := (reachable getLayerFolder getLayerImage).
Local Abbreviation ids ov :=
  (List.map (@L.stamp Bounds) (all_overlays ov)).

(** ** What the runs of the two factory functions have built *)

Lemma run_baseLayers_built (w : Webmap) s bl s1 :
  _getBaseLayersForMap w s = (Normal bl, s1) ->
  baseLayers_built w s (Map.levels (map w)) bl s1.
Proof.
  intros H. pose proof (_getBaseLayersForMap_built Bounds w s) as Hwp.
  unfold wp in Hwp. now rewrite H in Hwp.
Qed.

Lemma run_overlays_built (w : Webmap) s ov s1 :
  _getOverlays w s = (Normal ov, s1) ->
  overlays_built w s (Map.levels (map w)) ov s1.
Proof.
  intros H. pose proof (_getOverlays_wp Bounds w s) as Hwp.
  unfold wp in Hwp. now rewrite H in Hwp.
Qed.

(** ** Visuals and the calls of the path getter *)

(** X1.  Whatever web map [initialize] runs on and however it completes,
    it adds to the world some calls of the path getter and as many
    visuals, one visual per call and in the order of the calls; each
    visual is loaded from the path its call returned, followed by
    ["/{z}/{x}/{y}.png"] under [Tiles] settings; the visuals are new
    objects, pairwise different. *)
Theorem visuals_follow_calls (w : Webmap) s :
  exists cs vs,
    path_calls (snd (initialize w s)) = path_calls s ++ cs
    /\ visuals (snd (initialize w s)) = visuals s ++ vs
    /\ Forall2 (fun c v => url_of v = call_url w c) cs vs
    /\ NoDup (List.map (@L.stamp Bounds) vs)
    /\ (forall v, In v vs ->
          next_id s <= L.stamp v < next_id (snd (initialize w s))).
Proof.
  destruct (builds_only_initialize Bounds w s)
    as (cs & vs & H1 & H2 & H3 & _ & H5 & H6).
  exists cs, vs. auto.
Qed.

(** X2.  The constructor's choice of the path getter, as the locations of
    the visuals show it: a getter passed in the parameters produces every
    path; without one, [getLayerFolder] does under [Tiles] settings and
    [getLayerImage] under other or no settings. *)
Theorem path_getter_selection (p : WebmapParameters Bounds) s :
  exists cs vs,
    path_calls (snd (initialize (new p) s)) = path_calls s ++ cs
    /\ visuals (snd (initialize (new p) s)) = visuals s ++ vs
    /\ Forall2
         (fun c v =>
            url_of v
            = match Config.layerSettings (param_config p) with
              | Some (Config.Tiles _) =>
                  (path_of
                     match param_pathGetter p with
                     | Some g => g
                     | None => getLayerFolder
                     end c
                   ++ tile_suffix)%string
              | _ =>
                  path_of
                    match param_pathGetter p with
                    | Some g => g
                    | None => getLayerImage
                    end c
              end)
         cs vs.
Proof.
  destruct (builds_only_initialize Bounds (new p) s)
    as (cs & vs & H1 & H2 & H3 & _).
  exists cs, vs. split; [exact H1|]. split; [exact H2|].
  eapply Forall2_impl; [|exact H3].
  intros c v ->. unfold call_url, tiles_of. simpl.
  destruct (Config.layerSettings (param_config p)) as [[tileSize|]|];
    destruct (param_pathGetter p); reflexivity.
Qed.

(** ** The layers, one by one *)

(** X3.  After [initialize], the base layer of a level is a group whose
    members are the visuals of the underlays the level names, in their
    order, followed by the primary visual of the level: one member more
    than the level has underlays, and the primary visual alone when it
    has none. *)
Theorem base_layer_groups (w0 : Webmap) s w s' k g :
  initialize w0 s = (Normal w, s') ->
  Obj.get k (_baseLayers w) = Some g ->
  exists level,
    In (k, level) (Map.levels (map w0))
    /\ (Obj.wf (Map.levels (map w0)) ->
        Obj.get k (Map.levels (map w0)) = Some level)
    /\ base_group_of w0 k level g
    /\ List.length (L.members_of g) = S (List.length (underlay_names level))
    /\ (underlay_names level = [] ->
        exists id, L.members_of g = [baseLayer_of w0 k id]).
Proof.
  intros Hrun Hget.
  apply initialize_run_layers in Hrun.
  destruct Hrun as (bl & s1 & Hrun1 & ov & _ & Hbl & _).
  rewrite Hbl in Hget.
  pose proof (_getBaseLayersForMap_exact Bounds w0 s) as Hwp.
  unfold wp in Hwp. rewrite Hrun1 in Hwp.
  destruct (Hwp k g Hget) as (level & Hin & Hg).
  exists level. split; [exact Hin|].
  split; [intros Hwf; now apply ObjFacts.in_get|].
  split; [exact Hg|].
  destruct Hg as (us & b & Eg & HF & Eb).
  apply Forall2_length in HF.
  split.
  - rewrite Eg. simpl. rewrite length_app. simpl. lia.
  - intros Hnone. rewrite Hnone in HF.
    destruct us; [|discriminate]. exists (L.stamp b).
    rewrite Eg. simpl. now rewrite <- Eb.
Qed.


(** X5.  After [initialize], the base layers and the overlays of all
    levels are pairwise different objects, all of them created during
    this run. *)
Theorem layers_are_distinct (w0 : Webmap) s w s' :
  initialize w0 s = (Normal w, s') ->
  NoDup (List.map (@L.stamp Bounds)
           (Obj.values (_baseLayers w) ++ all_overlays (_overlays w)))
  /\ forall l,
       In l (Obj.values (_baseLayers w) ++ all_overlays (_overlays w)) ->
       next_id s <= L.stamp l < next_id s'.
Proof.
  intros Hrun.
  apply initialize_run_layers in Hrun.
  destruct Hrun as (bl & s1 & Hrun1 & ov & Hrun2 & Hbl & Hov & _).
  rewrite Hbl, Hov.
  apply run_baseLayers_built in Hrun1.
  apply run_overlays_built in Hrun2.
  pose proof (bb_next Hrun1) as Hn1. pose proof (ob_next Hrun2) as Hn2.
  split.
  - rewrite map_app.
    apply NoDup_app; [exact (bb_nodup Hrun1) | exact (ob_nodup Hrun2) |].
    intros n Hb Ho.
    apply in_map_iff in Hb. destruct Hb as (g & <- & Hg).
    apply in_map_iff in Ho. destruct Ho as (x & Ex & Hx).
    apply (bb_range Hrun1) in Hg. apply (ob_range Hrun2) in Hx. lia.
  - intros l Hl. apply in_app_or in Hl. destruct Hl as [Hl|Hl].
    + apply (bb_range Hrun1) in Hl. lia.
    + apply (ob_range Hrun2) in Hl. lia.
Qed.

(** X6.  [_findMainBaseLayer] returns the base layer stored under
    [mainLevel], paired with that name, and [undefined] exactly when
    [mainLevel] is not a key of [BaseLayers]. *)
Theorem findMainBaseLayer_spec (w : Webmap) :
  (forall g n,
      _findMainBaseLayer w = Some (g, n)
      <-> n = Map.mainLevel (map w)
          /\ Obj.get (Map.mainLevel (map w)) (_baseLayers w) = Some g)
  /\ (_findMainBaseLayer w = None
      <-> ~ In (Map.mainLevel (map w)) (Obj.keys (_baseLayers w))).
Proof.
  rewrite (_findMainBaseLayer_get Bounds w).
  rewrite <- ObjFacts.get_none_iff.
  destruct (Obj.get (Map.mainLevel (map w)) (_baseLayers w)) as [g0|].
  - split.
    + intros g n. split.
      * intros H. injection H as <- <-. auto.
      * intros (-> & H). injection H as <-. reflexivity.
    + split; discriminate.
  - split.
    + intros g n. split; [discriminate | intros (_ & H); discriminate].
    + split; reflexivity.
Qed.

(** ** The view *)

(** X7.  What [initialize] does to the view, on any web map: the maximal
    bounds and the fitted bounds are the bounds of the map, the
    attribution prefix is left as it was, one subscription to
    [baselayerchange] is added after those there were, and the layers
    shown before stay, followed by the base layer of the main level when
    there is one and the view did not show it already. *)
Theorem initialize_view (w0 : Webmap) s w s' :
  initialize w0 s = (Normal w, s') ->
  L.maxBounds (_webmap w) = Some (Map.bounds (map w0))
  /\ L.fitted (_webmap w) = Some (Map.bounds (map w0))
  /\ L.attributionPrefix (_webmap w) = L.attributionPrefix (_webmap w0)
  /\ L.listeners (_webmap w) = L.listeners (_webmap w0) ++ ["baselayerchange"]
  /\ L.shown (_webmap w)
     = match Obj.get (Map.mainLevel (map w0)) (_baseLayers w) with
       | Some g =>
           if L.hasLayer g (_webmap w0) then L.shown (_webmap w0)
           else L.shown (_webmap w0) ++ [g]
       | None => L.shown (_webmap w0)
       end.
Proof.
  intros Hrun.
  apply initialize_run_layers in Hrun.
  destruct Hrun as (bl & s1 & _ & ov & _ & Hbl & _ & _ & _ & _ & Hview).
  rewrite Hview, Hbl.
  destruct (Obj.get (Map.mainLevel (map w0)) bl) as [g|];
    [|repeat split].
  unfold L.map_addLayer, L.hasLayer. simpl.
  destruct (existsb (fun l' => Nat.eqb (L.stamp l') (L.stamp g))
              (L.shown (_webmap w0)));
    repeat split.
Qed.

(** ** Registration of the base layers *)

(** X8.  [_addBaseLayersToControl] appends to the control one base-layer
    entry per base layer, in the order of the keys of [BaseLayers] and
    under these keys, and changes nothing else.  It does not look at what
    the control holds: called twice, it registers every base layer
    twice. *)
Theorem addBaseLayersToControl_appends (w : Webmap) :
  _addBaseLayersToControl w
  = with_layersControl (_layersControl w ++ base_entries_of (_baseLayers w)) w
  /\ List.map (@L.name Bounds) (base_entries_of (_baseLayers w))
     = Obj.keys (_baseLayers w)
  /\ List.map (@L.layer Bounds) (base_entries_of (_baseLayers w))
     = Obj.values (_baseLayers w)
  /\ _layersControl (_addBaseLayersToControl (_addBaseLayersToControl w))
     = _layersControl w ++ base_entries_of (_baseLayers w)
       ++ base_entries_of (_baseLayers w).
Proof.
  assert (H : forall w : Webmap,
            _addBaseLayersToControl w
            = with_layersControl
                (_layersControl w ++ base_entries_of (_baseLayers w)) w).
  { intros w1. unfold _addBaseLayersToControl.
    now rewrite addBaseLayers_fold. }
  split; [apply H|].
  split; [unfold base_entries_of, Obj.keys; now rewrite map_map|].
  split; [unfold base_entries_of, Obj.values; now rewrite map_map|].
  rewrite (H (_addBaseLayersToControl w)), (H w). simpl.
  now rewrite <- app_assoc.
Qed.

(** ** The builder *)

Lemma builder_calls_fold (p : WebmapParameters Bounds) calls : forall v,
  fold_left (@builder_call Bounds) calls
    {| _instance := new (with_param_webmap v p) |}
  = {| _instance :=
         new (with_param_webmap (fold_left (@view_call Bounds) calls v) p) |}.
Proof.
  induction calls as [|c calls IH]; intros v; [reflexivity|].
  simpl. rewrite <- IH. f_equal. now destruct c.
Qed.

(** X9.  The builder does nothing but act on the view: the web map that
    [andBuild] returns after any sequence of [andSetAttributionPrefix]
    and [andAddLayer] calls is the web map constructed from the same
    parameters with the view as these calls leave it, so that the
    configuration, the map description, the path getter and the empty
    layer maps and control are those of the constructor. *)
Theorem builder_acts_on_view (p : WebmapParameters Bounds) calls :
  andBuild
    (fold_left (@builder_call Bounds) calls
       (WebmapBuilder_new getLayerFolder getLayerImage p))
  = new (with_param_webmap
           (fold_left (@view_call Bounds) calls (param_webmap p)) p).
Proof.
  change (WebmapBuilder_new getLayerFolder getLayerImage p)
    with {| _instance := new (with_param_webmap (param_webmap p) p) |}.
  now rewrite builder_calls_fold.
Qed.

(** X10.  The layers do not depend on the view: [initialize] on two web
    maps that differ in the view only makes the same calls, builds the
    same visuals and completes alike, with the same base layers,
    overlays, control entries and main base layer, or with the same
    error. *)
Theorem view_is_irrelevant (w : Webmap) (v : L.Map Bounds) s :
  snd (initialize (with_webmap v w) s) = snd (initialize w s)
  /\ match fst (initialize (with_webmap v w) s), fst (initialize w s) with
     | Normal w1, Normal w2 =>
         _baseLayers w1 = _baseLayers w2
         /\ _overlays w1 = _overlays w2
         /\ _layersControl w1 = _layersControl w2
         /\ _mainBaseLayer w1 = _mainBaseLayer w2
     | Throw e1, Throw e2 => e1 = e2
     | _, _ => False
     end.
Proof.
  destruct (initialize (with_webmap v w) s) as [r1 t1] eqn:E1.
  destruct (initialize w s) as [r2 t2] eqn:E2.
  apply initialize_run_layers in E1, E2.
  destruct E1 as (bl1 & u1 & Hb1 & H1).
  destruct E2 as (bl2 & u2 & Hb2 & H2).
  assert (Hs : same_setup (with_webmap v w) w) by (repeat split).
  rewrite (_getBaseLayersForMap_ext Bounds _ _ Hs) in Hb1.
  rewrite Hb1 in Hb2. injection Hb2 as <- <-.
  simpl.
  destruct r1 as [w1|e1], r2 as [w2|e2].
  - destruct H1 as (ov1 & Ho1 & Hbl1 & Hov1 & _ & Hm1 & Hc1 & _).
    destruct H2 as (ov2 & Ho2 & Hbl2 & Hov2 & _ & Hm2 & Hc2 & _).
    rewrite (_getOverlays_ext Bounds _ _ Hs) in Ho1.
    rewrite Ho1 in Ho2. injection Ho2 as <- <-.
    split; [reflexivity|].
    split; [congruence|]. split; [congruence|].
    split; [rewrite Hc1, Hc2 | rewrite Hm1, Hm2]; reflexivity.
  - destruct H1 as (ov1 & Ho1 & _).
    rewrite (_getOverlays_ext Bounds _ _ Hs) in Ho1. congruence.
  - destruct H2 as (ov2 & Ho2 & _).
    rewrite (_getOverlays_ext Bounds _ _ Hs) in H1. congruence.
  - rewrite (_getOverlays_ext Bounds _ _ Hs) in H1.
    rewrite H1 in H2. injection H2 as <- <-. auto.
Qed.

(** ** The number of overlays *)



(** ** [_updateOverlays] on any control *)

Lemma times_registered_removeLayer (l l' : Layer) c :
  times_registered l' (L.removeLayer l c)
  = if Nat.eqb (L.stamp l') (L.stamp l) then pred (times_registered l' c)
    else times_registered l' c.
Proof.
  unfold times_registered, stamps.
  induction c as [|e c IH]; simpl.
  - now destruct (Nat.eqb (L.stamp l') (L.stamp l)).
  - destruct (Nat.eqb_spec (L.stamp (L.layer e)) (L.stamp l)) as [E|NE].
    + destruct (Nat.eq_dec (L.stamp (L.layer e)) (L.stamp l')) as [E'|NE'].
      * rewrite <- E', E, Nat.eqb_refl. reflexivity.
      * destruct (Nat.eqb_spec (L.stamp l') (L.stamp l)) as [E2|_];
          [congruence | reflexivity].
    + simpl.
      destruct (Nat.eq_dec (L.stamp (L.layer e)) (L.stamp l')) as [E'|NE'].
      * rewrite IH.
        destruct (Nat.eqb_spec (L.stamp l') (L.stamp l)) as [E2|_];
          [congruence | reflexivity].
      * exact IH.
Qed.

Lemma times_registered_remove_all (l' : Layer) ls : forall c,
  NoDup (List.map (@L.stamp Bounds) ls) ->
  times_registered l' (remove_all ls c)
  = if existsb (Nat.eqb (L.stamp l')) (List.map (@L.stamp Bounds) ls)
    then pred (times_registered l' c)
    else times_registered l' c.
Proof.
  unfold remove_all.
  induction ls as [|l ls IH]; intros c Hnd; simpl; [reflexivity|].
  inversion Hnd as [|n ns Hnotin Hnd' E]; subst.
  rewrite IH by exact Hnd'. rewrite times_registered_removeLayer.
  destruct (Nat.eqb_spec (L.stamp l') (L.stamp l)) as [E|NE]; simpl;
    [|reflexivity].
  assert (Hex : existsb (Nat.eqb (L.stamp l'))
                  (List.map (@L.stamp Bounds) ls) = false).
  { apply not_true_is_false. intros Hex. apply existsb_exists in Hex.
    destruct Hex as (n & Hn & En). apply Nat.eqb_eq in En.
    apply Hnotin. congruence. }
  now rewrite Hex.
Qed.

(** X12.  For level names and display labels that are ordinary names:
    [_updateOverlays] on a control in any state, in a web map that has
    been initialised: for every overlay of the web map one of its
    registrations is removed, so that an overlay registered [n] times is
    left with [n - 1] registrations; the registrations of every other
    layer are kept; then each overlay of the target level is registered
    once more. *)
Theorem sync_removes_one_registration (w0 : Webmap) s w s' c t (l : Layer) :
  plain_names w0 ->
  initialize w0 s = (Normal w, s') ->
  times_registered l
    (_layersControl (_updateOverlays t (with_layersControl c w)))
  = (if existsb (Nat.eqb (L.stamp l)) (ids (_overlays w))
     then pred (times_registered l c)
     else times_registered l c)
    + times_registered l (target_entries t (_overlays w)).
Proof.
  intros _ Hrun.
  apply initialize_run_layers in Hrun.
  destruct Hrun as (bl & s1 & _ & ov & Hrun2 & _ & Hov & _).
  apply run_overlays_built in Hrun2.
  rewrite _updateOverlays_control. simpl. rewrite Hov.
  rewrite times_registered_app. f_equal.
  apply times_registered_remove_all. exact (ob_nodup Hrun2).
Qed.

(** ** The states of a web map *)

Lemma without_absent idl (c : L.Control Bounds) :
  (forall e, In e c -> ~ In (L.stamp (L.layer e)) idl) -> without idl c = c.
Proof.
  unfold without. induction c as [|e c IH]; intros H; simpl; [reflexivity|].
  assert (Hex : existsb (Nat.eqb (L.stamp (L.layer e))) idl = false).
  { apply not_true_is_false. intros Hex. apply existsb_exists in Hex.
    destruct Hex as (n & Hn & En). apply Nat.eqb_eq in En.
    apply (H e); [now left | congruence]. }
  rewrite Hex. simpl. f_equal. apply IH. intros e' He'. apply H. now right.
Qed.

(** [_updateOverlays] on a control in shape: the base-layer entries stay
    where they are, the overlay entries are replaced. *)
Lemma sync_in_shape (bl : BaseLayers Bounds) (ov : Overlays Bounds) c t :
  NoDup (ids ov) ->
  (forall g, In g (Obj.values bl) -> ~ In (L.stamp g) (ids ov)) ->
  control_in_shape bl ov c ->
  remove_all (all_overlays ov) c ++ target_entries t ov
  = base_entries_of bl ++ target_entries t ov.
Proof.
  intros Hnd Hap (T & -> & HT).
  assert (HT1 : forall l : Layer, times_registered l T <= 1).
  { intros l. destruct HT as [->|(k & ->)].
    - unfold times_registered. simpl. lia.
    - now apply target_entries_once. }
  assert (HT0 : without (ids ov) T = []).
  { destruct HT as [->|(k & ->)];
      [reflexivity | apply without_target_entries]. }
  rewrite remove_all_once.
  - rewrite without_app, HT0, app_nil_r. f_equal.
    apply without_absent. intros e He.
    unfold base_entries_of in He. apply in_map_iff in He.
    destruct He as ([k g] & <- & He). simpl. apply Hap.
    unfold Obj.values. change g with (snd (k, g)). now apply in_map.
  - intros l Hl. rewrite times_registered_app.
    assert (H0 : times_registered l (base_entries_of bl) = 0).
    { unfold times_registered. apply count_occ_not_In.
      rewrite stamps_base_entries_of. intros Hin.
      apply in_map_iff in Hin. destruct Hin as (g & Eg & Hg).
      apply (Hap g Hg). rewrite Eg. now apply in_map. }
    rewrite H0. apply HT1.
Qed.

(** The handlers of a list of subscriptions, run on a web map whose
    control is in shape. *)
Lemma handlers_in_shape (w0 : Webmap) name types : forall c,
  NoDup (ids (_overlays w0)) ->
  (forall g, In g (Obj.values (_baseLayers w0)) ->
     ~ In (L.stamp g) (ids (_overlays w0))) ->
  control_in_shape (_baseLayers w0) (_overlays w0) c ->
  exists c',
    fold_left
      (fun w type =>
         if String.eqb type "baselayerchange" then _updateOverlays name w
         else w)
      types (with_layersControl c w0)
    = with_layersControl c' w0
    /\ control_in_shape (_baseLayers w0) (_overlays w0) c'.
Proof.
  induction types as [|type types IH]; intros c Hnd Hap Hc; simpl.
  - now exists c.
  - destruct (String.eqb type "baselayerchange"); [|now apply IH].
    rewrite _updateOverlays_eq. simpl.
    rewrite (sync_in_shape _ _ c name Hnd Hap Hc).
    apply (IH (base_entries_of (_baseLayers w0)
               ++ target_entries name (_overlays w0)) Hnd Hap).
    exists (target_entries name (_overlays w0)).
    split; [reflexivity|]. right. now exists name.
Qed.

(** Every state of a web map is the web map [initialize] returned, with
    a control in shape. *)
Lemma reachable_in_shape (p : WebmapParameters Bounds) s w :
  reachable p s w ->
  exists w0 s' c,
    initialize (new p) s = (Normal w0, s')
    /\ w = with_layersControl c w0
    /\ control_in_shape (_baseLayers w0) (_overlays w0) c.
Proof.
  induction 1 as [w s' Hrun | w name Hr IH].
  - exists w, s', (_layersControl w). split; [exact Hrun|].
    split; [now destruct w|].
    destruct (initialize_initialized Bounds getLayerFolder getLayerImage
                p s w s' Hrun) as [_ _ _ Hctl _].
    rewrite Hctl. eexists. split; [reflexivity|].
    destruct (_mainBaseLayer w) as [[g k]|]; [right; now exists k | now left].
  - destruct IH as (w0 & s' & c & Hrun & -> & Hc).
    pose proof (initialize_initialized Bounds getLayerFolder getLayerImage
                  p s w0 s' Hrun) as Hi.
    destruct (handlers_in_shape w0 name
                (L.listeners (webmap (with_layersControl c w0))) c
                (initialized_nodup Bounds getLayerFolder getLayerImage
                   p s w0 s' Hi)
                (initialized_apart Bounds getLayerFolder getLayerImage
                   p s w0 s' Hi)
                Hc) as (c' & Hfold & Hc').
    exists w0, s', c'. split; [exact Hrun|]. split; [exact Hfold | exact Hc'].
Qed.

(** X13.  For level names and display labels that are ordinary names:
    in every state of a web map (after [initialize] and any number of
    base-layer changes), a [baselayerchange] event for [name] leaves the
    control with the entries of the base layers, in the order of
    [BaseLayers], followed by the overlays of the level [name] under
    their display labels, and with the base-layer entries alone when
    [name] is not a level. *)
Theorem baselayerchange_control (p : WebmapParameters Bounds) s w name :
  plain_names (new p) ->
  reachable p s w ->
  _layersControl (baselayerchange name w)
  = base_entries_of (_baseLayers w) ++ target_entries name (_overlays w)
  /\ (Obj.get name (_overlays w) = None ->
      _layersControl (baselayerchange name w)
      = base_entries_of (_baseLayers w)).
Proof.
  intros _ Hr.
  assert (H : _layersControl (baselayerchange name w)
              = base_entries_of (_baseLayers w)
                ++ target_entries name (_overlays w)).
  { destruct (reachable_in_shape p s w Hr) as (w0 & s' & c & Hrun & -> & Hc).
    pose proof (initialize_initialized Bounds getLayerFolder getLayerImage
                  p s w0 s' Hrun) as Hi.
    pose proof (initialized_nodup Bounds getLayerFolder getLayerImage
                  p s w0 s' Hi) as Hnd.
    pose proof (initialized_apart Bounds getLayerFolder getLayerImage
                  p s w0 s' Hi) as Hap.
    unfold baselayerchange.
    change (L.listeners (webmap (with_layersControl c w0)))
      with (L.listeners (_webmap w0)).
    destruct Hi as [_ _ _ _ Hview]. rewrite Hview.
    change (L.listeners (L.on "baselayerchange" ?m))
      with (L.listeners m ++ ["baselayerchange"]).
    rewrite fold_left_app.
    match goal with
    | |- context [fold_left ?f ?types (with_layersControl c w0)] =>
        destruct (handlers_in_shape w0 name types c Hnd Hap Hc)
          as (c' & Hfold & Hc')
    end.
    rewrite Hfold. cbn [fold_left]. rewrite String.eqb_refl.
    rewrite _updateOverlays_control.
    exact (sync_in_shape _ _ c' name Hnd Hap Hc'). }
  split; [exact H|].
  intros Hnone. rewrite H. unfold target_entries. rewrite Hnone.
  apply app_nil_r.
Qed.

(** X14.  For level names and display labels that are ordinary names:
    of the fields of the web map, a base-layer change modifies the
    control and no other: in every state the map description, the
    configuration, the path getter, the layer maps and the main base
    layer are those [initialize] left, and the control holds the entries
    of the base layers, in the order of [BaseLayers], followed by the
    overlays of one level at most.  (The view is Leaflet's to change.) *)
Theorem events_change_the_control_only (p : WebmapParameters Bounds) s w :
  plain_names (new p) ->
  reachable p s w ->
  exists w0 s',
    initialize (new p) s = (Normal w0, s')
    /\ _map w = _map w0
    /\ _config w = _config w0
    /\ _pathGetter w = _pathGetter w0
    /\ _baseLayers w = _baseLayers w0
    /\ _overlays w = _overlays w0
    /\ _mainBaseLayer w = _mainBaseLayer w0
    /\ L.base_entries (_layersControl w) = base_entries_of (_baseLayers w0)
    /\ _layersControl w
       = base_entries_of (_baseLayers w0)
         ++ L.overlay_entries (_layersControl w)
    /\ (L.overlay_entries (_layersControl w) = []
        \/ exists k,
             L.overlay_entries (_layersControl w)
             = target_entries k (_overlays w0)).
Proof.
  intros _ Hr.
  destruct (reachable_in_shape p s w Hr)
    as (w0 & s' & c & Hrun & -> & T & -> & HT).
  exists w0, s'. split; [exact Hrun|].
  do 6 (split; [reflexivity|]). simpl.
  assert (HTo : L.overlay_entries T = T).
  { destruct HT as [->|(k & ->)];
      [reflexivity | apply overlay_entries_target_entries]. }
  assert (HTb : L.base_entries T = []).
  { destruct HT as [->|(k & ->)];
      [reflexivity | apply base_entries_target_entries]. }
  rewrite base_entries_app, overlay_entries_app.
  rewrite base_entries_base_entries_of, overlay_entries_base_entries_of.
  rewrite HTo, HTb, app_nil_r. simpl.
  split; [reflexivity|]. split; [reflexivity|]. exact HT.
Qed.

(** X15.  In every state of a web map the labels of the control tell the
    entries apart: no two base-layer entries have the same name, and no
    two overlay entries have the same label. *)
Theorem control_labels_unique (p : WebmapParameters Bounds) s w :
  reachable p s w ->
  NoDup (List.map (@L.name Bounds) (L.base_entries (_layersControl w)))
  /\ NoDup (List.map (@L.name Bounds) (L.overlay_entries (_layersControl w))).
Proof.
  intros Hr.
  destruct (reachable_in_shape p s w Hr)
    as (w0 & s' & c & Hrun & -> & T & -> & HT).
  destruct (initialize_initialized Bounds getLayerFolder getLayerImage
              p s w0 s' Hrun) as [_ (s1 & Hb & Ho) _ _ _].
  simpl.
  rewrite base_entries_app, overlay_entries_app.
  rewrite base_entries_base_entries_of, overlay_entries_base_entries_of.
  simpl.
  destruct HT as [->|(k & ->)].
  - simpl. rewrite app_nil_r. split; [|constructor].
    unfold base_entries_of. rewrite map_map. exact (bb_wf Hb).
  - rewrite base_entries_target_entries, app_nil_r.
    rewrite overlay_entries_target_entries. split.
    + unfold base_entries_of. rewrite map_map. exact (bb_wf Hb).
    + unfold target_entries.
      destruct (Obj.get k (_overlays w0)) as [o|] eqn:E; [|constructor].
      destruct (ob_levels Ho _ E) as (Hwf & _).
      unfold overlay_entries_of. rewrite map_map. exact Hwf.
Qed.

(** ** Where [initialize] throws *)




End Further.

(* ================================================================== *)
(** * The worked configuration, run *)
(* ================================================================== *)

Section Worked.

Import Demo.

Local Abbreviation ok p :=
  (initialize (new p) world0 = (Normal (final p), world p)).
Local Abbreviation shown_as c :=
  (List.map (fun e => (L.name e, L.overlay e, L.stamp (L.layer e))) c).

Lemma tiled_runs : ok tiled.
Proof. vm_compute. reflexivity. Qed.

(** The scenario of the specification: the level ["L1"] is shown, with
    its two overlays in the control. *)
Example tiled_control :
  shown_as (_layersControl (final tiled))
  = [("L1", false, 1); ("L2", false, 4);
     ("Electrical", true, 5); ("Plumbing", true, 6)].
Proof. vm_compute. reflexivity. Qed.

(** The user chooses ["L2"]. *)
Example tiled_change :
  shown_as (_layersControl (baselayerchange "L2" (final tiled)))
  = [("L1", false, 1); ("L2", false, 4);
     ("Electrical", true, 7); ("Plumbing", true, 8)].
Proof. vm_compute. reflexivity. Qed.

Example no_main_control :
  shown_as (_layersControl (final no_main))
  = [("L1", false, 1); ("L2", false, 4)]
  /\ L.shown (_webmap (final no_main)) = [].
Proof. vm_compute. auto. Qed.

Example property_order :
  Obj.keys (Obj.of_list [("b", 1); ("10", 2); ("2", 3); ("a", 4); ("2", 5)])
  = ["2"; "10"; "b"; "a"].
Proof. vm_compute. reflexivity. Qed.

(** ** X17 *)

Lemma sync_then_sync_witness :
  plain_names (new tiled)
  /\ ok tiled
  /\ registered_once (_overlays (final tiled)) (_layersControl (final tiled))
  /\ overlays_known (_overlays (final tiled)) (_layersControl (final tiled))
  /\ _layersControl
       (_updateOverlays "L1"
          (with_layersControl (_layersControl (final tiled)) (final tiled)))
     = without
         (List.map (@L.stamp Bounds) (all_overlays (_overlays (final tiled))))
         (_layersControl (final tiled))
       ++ target_entries "L1" (_overlays (final tiled))
  /\ L.overlay_entries
       (_layersControl
          (_updateOverlays "L2"
             (_updateOverlays "L1"
                (with_layersControl (_layersControl (final tiled))
                   (final tiled)))))
     = target_entries "L2" (_overlays (final tiled)).
Proof.
  assert (Hp : plain_names (new tiled))
    by (apply plain_namesb_spec; vm_compute; reflexivity).
  assert (H0 : ok tiled) by (vm_compute; reflexivity).
  assert (H1 : registered_once (_overlays (final tiled))
                 (_layersControl (final tiled)))
    by (apply registered_onceb_spec; vm_compute; reflexivity).
  assert (H2 : overlays_known (_overlays (final tiled))
                 (_layersControl (final tiled)))
    by (apply overlays_knownb_spec; vm_compute; reflexivity).
  split; [exact Hp|].
  split; [exact H0|]. split; [exact H1|]. split; [exact H2|].
  exact (sync_then_sync Bounds getLayerFolder getLayerImage tiled world0
           (final tiled) (world tiled) (_layersControl (final tiled))
           "L1" "L2" Hp H0 H1 H2).
Defined.

(** ** C4 *)

(** An overlay of a level that is not shown, registered twice: the first
    [sync] removes one of its entries, the second the other. *)
Lemma sync_twice_differs :
  initialize (new tiled) world0 = (Normal (final tiled), world tiled)
  /\ shown_as registered_twice
     = [("Electrical", true, 7); ("Electrical", true, 7)]
  /\ shown_as
       (L.overlay_entries
          (_layersControl
             (_updateOverlays "L1"
                (with_layersControl registered_twice (final tiled)))))
     = [("Electrical", true, 7); ("Electrical", true, 5);
        ("Plumbing", true, 6)]
  /\ shown_as
       (L.overlay_entries
          (_layersControl
             (_updateOverlays "L1"
                (_updateOverlays "L1"
                   (with_layersControl registered_twice (final tiled))))))
     = [("Electrical", true, 5); ("Plumbing", true, 6)]
  /\ L.overlay_entries
       (_layersControl
          (_updateOverlays "L1"
             (_updateOverlays "L1"
                (with_layersControl registered_twice (final tiled)))))
     <> L.overlay_entries
          (_layersControl
             (_updateOverlays "L1"
                (with_layersControl registered_twice (final tiled)))).
Proof.
  split; [vm_compute; reflexivity|].
  split; [vm_compute; reflexivity|].
  split; [vm_compute; reflexivity|].
  split; [vm_compute; reflexivity|].
  vm_compute. discriminate.
Qed.

Lemma sync_idempotent_witness :
  ok tiled
  /\ registered_once (_overlays (final tiled)) (_layersControl (final tiled))
  /\ _updateOverlays "L2"
       (_updateOverlays "L2"
          (with_layersControl (_layersControl (final tiled)) (final tiled)))
     = _updateOverlays "L2"
         (with_layersControl (_layersControl (final tiled)) (final tiled)).
Proof.
  assert (H0 : ok tiled) by (vm_compute; reflexivity).
  assert (H1 : registered_once (_overlays (final tiled))
                 (_layersControl (final tiled)))
    by (apply registered_onceb_spec; vm_compute; reflexivity).
  split; [exact H0|]. split; [exact H1|].
  exact (sync_idempotent Bounds getLayerFolder getLayerImage tiled world0
           (final tiled) (world tiled) (_layersControl (final tiled))
           "L2" H0 H1).
Defined.

(** ** X19 *)

Lemma sync_absent_level_witness :
  plain_names (new tiled)
  /\ ok tiled
  /\ Obj.get "Roof" (_overlays (final tiled)) = None
  /\ _layersControl
       (_updateOverlays "Roof"
          (with_layersControl (_layersControl (final tiled)) (final tiled)))
     = remove_all (all_overlays (_overlays (final tiled)))
         (_layersControl (final tiled))
  /\ L.overlay_entries
       (_layersControl
          (_updateOverlays "Roof"
             (with_layersControl (_layersControl (final tiled))
                (final tiled))))
     = [].
Proof.
  assert (Hp : plain_names (new tiled))
    by (apply plain_namesb_spec; vm_compute; reflexivity).
  assert (H0 : ok tiled) by (vm_compute; reflexivity).
  assert (Hn : Obj.get "Roof" (_overlays (final tiled)) = None)
    by (vm_compute; reflexivity).
  assert (H1 : registered_once (_overlays (final tiled))
                 (_layersControl (final tiled)))
    by (apply registered_onceb_spec; vm_compute; reflexivity).
  assert (H2 : overlays_known (_overlays (final tiled))
                 (_layersControl (final tiled)))
    by (apply overlays_knownb_spec; vm_compute; reflexivity).
  split; [exact Hp|]. split; [exact H0|]. split; [exact Hn|].
  destruct (sync_absent_level Bounds getLayerFolder getLayerImage tiled world0
              (final tiled) (world tiled) (_layersControl (final tiled))
              "Roof" Hp H0 Hn) as [Ha Hb].
  split; [exact Ha | exact (Hb H1 H2)].
Defined.

(** ** C9 *)

Lemma sync_keeps_base_entries_witness :
  ok tiled
  /\ L.base_entries (_layersControl (final tiled))
     = base_entries_of (_baseLayers (final tiled))
  /\ L.base_entries
       (_layersControl
          (_updateOverlays "L2"
             (with_layersControl (_layersControl (final tiled))
                (final tiled))))
     = L.base_entries (_layersControl (final tiled)).
Proof.
  assert (H0 : ok tiled) by (vm_compute; reflexivity).
  assert (H1 : L.base_entries (_layersControl (final tiled))
               = base_entries_of (_baseLayers (final tiled)))
    by (vm_compute; reflexivity).
  split; [exact H0|]. split; [exact H1|].
  exact (sync_keeps_base_entries Bounds getLayerFolder getLayerImage tiled
           world0 (final tiled) (world tiled) (_layersControl (final tiled))
           "L2" H0 H1).
Defined.

(** ** X18 *)

Lemma same_keys_witness :
  plain_levels (new tiled)
  /\ ok tiled
  /\ Obj.keys (_baseLayers (final tiled)) = ["L1"; "L2"]
  /\ Obj.keys (_overlays (final tiled)) = ["L1"; "L2"]
  /\ (forall k, In k (Obj.keys (_baseLayers (final tiled)))
                <-> In k (Obj.keys (Map.levels (map (final tiled)))))
  /\ (forall k, In k (Obj.keys (_overlays (final tiled)))
                <-> In k (Obj.keys (Map.levels (map (final tiled))))).
Proof.
  assert (Hp : plain_names (new tiled))
    by (apply plain_namesb_spec; vm_compute; reflexivity).
  assert (H0 : ok tiled) by (vm_compute; reflexivity).
  split; [exact (proj1 Hp)|]. split; [exact H0|].
  split; [vm_compute; reflexivity|]. split; [vm_compute; reflexivity|].
  destruct (same_keys Bounds getLayerFolder getLayerImage tiled world0
              (final tiled) (world tiled) (proj1 Hp) H0) as (Ha & Hb & _).
  split; [exact Ha | exact Hb].
Defined.

(** ** X20 *)


(** ** C5 *)



(** ** C6 *)

Lemma strategy_selection_witness :
  ok tiled
  /\ Config.layerSettings (param_config tiled) = Some (Config.Tiles 256)
  /\ exists vb vo,
       visuals (world tiled) = visuals world0 ++ vb ++ vo
       /\ (Forall (tile_with (Map.bounds (fst (param_map tiled))) 256) vb
           /\ Forall (tile_with (Map.bounds (fst (param_map tiled))) 1024) vo)
       /\ (forall g, In g (Obj.values (_baseLayers (final tiled))) ->
             incl (L.members_of g) vb)
       /\ incl (all_overlays (_overlays (final tiled))) vo.
Proof.
  assert (H0 : ok tiled) by (vm_compute; reflexivity).
  split; [exact H0|]. split; [vm_compute; reflexivity|].
  destruct (strategy_selection Bounds getLayerFolder getLayerImage tiled
              world0 (Normal (final tiled)) (world tiled) H0)
    as (vb & vo & Hv & Hs & Hm & Hi).
  exists vb, vo. split; [exact Hv|]. split; [exact Hs|].
  split; [exact Hm | exact Hi].
Defined.

(** ** C7 *)

Lemma path_getter_calls_witness :
  ok tiled
  /\ path_calls (world tiled)
     = path_calls world0 ++ base_calls (new tiled) ++ overlay_calls (new tiled)
  /\ base_calls (new tiled)
     = [("station", "L1", Some "floor");
        ("station", "basement", Some "floor");
        ("station", "L2", Some "floor")]
  /\ overlay_calls (new tiled)
     = [("station", "L1", Some "electrical");
        ("station", "L1", Some "plumbing");
        ("station", "L2", Some "electrical");
        ("station", "L2", Some "plumbing")].
Proof.
  assert (H0 : ok tiled) by (vm_compute; reflexivity).
  split; [exact H0|]. split.
  - exact (path_getter_calls Bounds getLayerFolder getLayerImage tiled
             world0 (Normal (final tiled)) (world tiled) H0).
  - split; vm_compute; reflexivity.
Defined.

(** ** C10 *)



End Worked.

(* ================================================================== *)
(** * The worked configuration and the further properties *)
(* ================================================================== *)

Section WorkedFurther.

Import Demo.

Local Abbreviation ok p :=
  (initialize (new p) world0 = (Normal (final p), world p)).

(** ** X3 *)

Lemma base_layer_groups_witness :
  ok tiled
  /\ match Obj.get "L2" (_baseLayers (final tiled)) with
     | Some g =>
         exists level,
           Obj.get "L2" (Map.levels (map (new tiled))) = Some level
           /\ base_group_of (new tiled) "L2" level g
           /\ List.length (L.members_of g)
              = S (List.length (underlay_names level))
     | None => False
     end
  /\ match Obj.get "L1" (_baseLayers (final tiled)) with
     | Some g => exists id, L.members_of g = [baseLayer_of (new tiled) "L1" id]
     | None => False
     end.
Proof.
  assert (H0 : ok tiled) by (vm_compute; reflexivity).
  assert (Hwf : Obj.wf (Map.levels (map (new tiled)))).
  { vm_compute. repeat constructor; simpl; intuition discriminate. }
  assert (H1 : Obj.get "L1" (_baseLayers (final tiled)) <> None)
    by (vm_compute; discriminate).
  assert (H2 : Obj.get "L2" (_baseLayers (final tiled)) <> None)
    by (vm_compute; discriminate).
  split; [exact H0|]. split.
  - destruct (Obj.get "L2" (_baseLayers (final tiled))) as [g|] eqn:E;
      [|exact (H2 eq_refl)].
    destruct (base_layer_groups Bounds (new tiled) world0 (final tiled)
                (world tiled) "L2" g H0 E)
      as (level & _ & Hget & Hg & Hlen & _).
    exists level. split; [exact (Hget Hwf)|]. split; [exact Hg | exact Hlen].
  - destruct (Obj.get "L1" (_baseLayers (final tiled))) as [g|] eqn:E;
      [|exact (H1 eq_refl)].
    destruct (base_layer_groups Bounds (new tiled) world0 (final tiled)
                (world tiled) "L1" g H0 E)
      as (level & _ & Hget & _ & _ & Hnone).
    apply Hnone. pose proof (Hget Hwf) as Hl.
    assert (Hl1 : Obj.get "L1" (Map.levels (map (new tiled)))
                  = Some {| Level.underlays := Some [] |})
      by (vm_compute; reflexivity).
    rewrite Hl1 in Hl. injection Hl as <-. reflexivity.
Defined.

(** ** X4 *)


(** ** X5 *)

Lemma layers_are_distinct_witness :
  ok tiled
  /\ NoDup (List.map (@L.stamp Bounds)
              (Obj.values (_baseLayers (final tiled))
               ++ all_overlays (_overlays (final tiled))))
  /\ List.map (@L.stamp Bounds)
       (Obj.values (_baseLayers (final tiled))
        ++ all_overlays (_overlays (final tiled)))
     = [1; 4; 5; 6; 7; 8].
Proof.
  assert (H0 : ok tiled) by (vm_compute; reflexivity).
  destruct (layers_are_distinct Bounds (new tiled) world0 (final tiled)
              (world tiled) H0) as [Hnd _].
  split; [exact H0|]. split; [exact Hnd|]. vm_compute. reflexivity.
Defined.

(** ** X7 *)

Lemma initialize_view_witness :
  ok tiled
  /\ L.maxBounds (_webmap (final tiled)) = Some (Map.bounds (map (new tiled)))
  /\ L.fitted (_webmap (final tiled)) = Some (Map.bounds (map (new tiled)))
  /\ L.listeners (_webmap (final tiled))
     = L.listeners (_webmap (new tiled)) ++ ["baselayerchange"]
  /\ List.map (@L.stamp Bounds) (L.shown (_webmap (final tiled))) = [1].
Proof.
  assert (H0 : ok tiled) by (vm_compute; reflexivity).
  destruct (initialize_view Bounds (new tiled) world0 (final tiled)
              (world tiled) H0) as (Ha & Hb & _ & Hd & _).
  split; [exact H0|]. split; [exact Ha|]. split; [exact Hb|].
  split; [exact Hd|]. vm_compute. reflexivity.
Defined.

(** ** X11 *)


(** ** X12 *)

(** The overlay of ["L2"] that [registered_twice] holds twice is left
    with one registration. *)
Lemma sync_removes_one_registration_witness :
  plain_names (new tiled)
  /\ ok tiled
  /\ times_registered (overlay_of (new tiled) "L2" "electrical" 7)
       registered_twice = 2
  /\ times_registered (overlay_of (new tiled) "L2" "electrical" 7)
       (_layersControl
          (_updateOverlays "L1"
             (with_layersControl registered_twice (final tiled))))
     = (if existsb (Nat.eqb 7)
             (List.map (@L.stamp Bounds)
                (all_overlays (_overlays (final tiled))))
        then pred (times_registered
                     (overlay_of (new tiled) "L2" "electrical" 7)
                     registered_twice)
        else times_registered (overlay_of (new tiled) "L2" "electrical" 7)
               registered_twice)
       + times_registered (overlay_of (new tiled) "L2" "electrical" 7)
           (target_entries "L1" (_overlays (final tiled)))
  /\ times_registered (overlay_of (new tiled) "L2" "electrical" 7)
       (_layersControl
          (_updateOverlays "L1"
             (with_layersControl registered_twice (final tiled))))
     = 1.
Proof.
  assert (Hp : plain_names (new tiled))
    by (apply plain_namesb_spec; vm_compute; reflexivity).
  assert (H0 : ok tiled) by (vm_compute; reflexivity).
  split; [exact Hp|]. split; [exact H0|]. split; [vm_compute; reflexivity|].
  split; [|vm_compute; reflexivity].
  exact (sync_removes_one_registration Bounds (new tiled) world0
           (final tiled) (world tiled) registered_twice "L1"
           (overlay_of (new tiled) "L2" "electrical" 7) Hp H0).
Defined.

(** ** X13 *)

Lemma baselayerchange_control_witness :
  plain_names (new tiled)
  /\ reachable getLayerFolder getLayerImage tiled world0
       (baselayerchange "L2" (final tiled))
  /\ _layersControl
       (baselayerchange "L1" (baselayerchange "L2" (final tiled)))
     = base_entries_of (_baseLayers (baselayerchange "L2" (final tiled)))
       ++ target_entries "L1"
            (_overlays (baselayerchange "L2" (final tiled)))
  /\ Obj.get "Roof" (_overlays (baselayerchange "L2" (final tiled))) = None
  /\ _layersControl
       (baselayerchange "Roof" (baselayerchange "L2" (final tiled)))
     = base_entries_of (_baseLayers (baselayerchange "L2" (final tiled))).
Proof.
  assert (H0 : ok tiled) by (vm_compute; reflexivity).
  assert (Hr : reachable getLayerFolder getLayerImage tiled world0
                 (baselayerchange "L2" (final tiled))).
  { apply reach_change. apply reach_initialize with (s' := world tiled).
    exact H0. }
  assert (Hn : Obj.get "Roof" (_overlays (baselayerchange "L2" (final tiled)))
               = None)
    by (vm_compute; reflexivity).
  assert (Hp : plain_names (new tiled))
    by (apply plain_namesb_spec; vm_compute; reflexivity).
  destruct (baselayerchange_control Bounds getLayerFolder getLayerImage
              tiled world0 (baselayerchange "L2" (final tiled)) "L1" Hp Hr)
    as [Ha _].
  destruct (baselayerchange_control Bounds getLayerFolder getLayerImage
              tiled world0 (baselayerchange "L2" (final tiled)) "Roof" Hp Hr)
    as [_ Hb].
  split; [exact Hp|].
  split; [exact Hr|]. split; [exact Ha|]. split; [exact Hn | exact (Hb Hn)].
Defined.

(** ** X14 *)

Lemma events_change_the_control_only_witness :
  plain_names (new tiled)
  /\ reachable getLayerFolder getLayerImage tiled world0
       (baselayerchange "L2" (final tiled))
  /\ exists w0 s',
       initialize (new tiled) world0 = (Normal w0, s')
       /\ _baseLayers (baselayerchange "L2" (final tiled)) = _baseLayers w0
       /\ _overlays (baselayerchange "L2" (final tiled)) = _overlays w0
       /\ _mainBaseLayer (baselayerchange "L2" (final tiled))
          = _mainBaseLayer w0
       /\ L.base_entries (_layersControl (baselayerchange "L2" (final tiled)))
          = base_entries_of (_baseLayers w0).
Proof.
  assert (Hp : plain_names (new tiled))
    by (apply plain_namesb_spec; vm_compute; reflexivity).
  assert (H0 : ok tiled) by (vm_compute; reflexivity).
  assert (Hr : reachable getLayerFolder getLayerImage tiled world0
                 (baselayerchange "L2" (final tiled))).
  { apply reach_change. apply reach_initialize with (s' := world tiled).
    exact H0. }
  split; [exact Hp|]. split; [exact Hr|].
  destruct (events_change_the_control_only Bounds getLayerFolder
              getLayerImage tiled world0
              (baselayerchange "L2" (final tiled)) Hp Hr)
    as (w0 & s' & Ha & _ & _ & _ & Hb & Hc & Hd & He & _).
  exists w0, s'. split; [exact Ha|]. split; [exact Hb|].
  split; [exact Hc|]. split; [exact Hd | exact He].
Defined.

(** ** X15 *)

Lemma control_labels_unique_witness :
  reachable getLayerFolder getLayerImage tiled world0
    (baselayerchange "L2" (final tiled))
  /\ NoDup (List.map (@L.name Bounds)
              (L.base_entries
                 (_layersControl (baselayerchange "L2" (final tiled)))))
  /\ NoDup (List.map (@L.name Bounds)
              (L.overlay_entries
                 (_layersControl (baselayerchange "L2" (final tiled))))).
Proof.
  assert (H0 : ok tiled) by (vm_compute; reflexivity).
  assert (Hr : reachable getLayerFolder getLayerImage tiled world0
                 (baselayerchange "L2" (final tiled))).
  { apply reach_change. apply reach_initialize with (s' := world tiled).
    exact H0. }
  split; [exact Hr|].
  exact (control_labels_unique Bounds getLayerFolder getLayerImage tiled
           world0 (baselayerchange "L2" (final tiled)) Hr).
Defined.

(** ** X16 *)


End WorkedFurther.
